(** * A weather lookup widget: city directory and weather component

    Shallow embedding of [src/app/services/city.service.ts] and of the two
    revisions of [src/app/weather/weather.component.ts] (the live one that
    calls the forecast provider, and the mock one that reads an in-memory
    table), with the properties of the specification proved or refuted on
    them.

    Conventions of the embedding.
    - A JavaScript string is a [string]: a sequence of code units, here the
      code units below 256 (the Latin-1 range), on which [toLowerCase],
      [trim] and the regular expression class [\s] are modelled in full.
      Icon strings lie outside that range; they are only ever copied, and
      are kept as the bytes of the source literal. The literals of the
      live revision are not the emoji of the mock revision: the file holds
      them decoded in the wrong character set, and so do the tables here.
    - A number is a binary64 value, a primitive [float]: the arithmetic of
      [temperatureF] is the rounded arithmetic of the host, and
      [Math.round] is read off the exact value of its argument. The three
      results of [Math.random] used by the mock revision are held by their
      exact values ([Q]), and [Math.floor] is taken on those.
    - The coordinates of the directory are produced by the host's [Number]
      conversion, which is a parameter of the development: nothing proved
      here depends on what it computes.
    - A callback that can raise returns a [completion]; state changes made
      before the exception are kept. *)

From Stdlib Require Import PrimFloat FloatOps SpecFloat.
From Stdlib Require Import Bool Arith List String Ascii ZArith QArith Qround Lia Lqa.
Import ListNotations.

Close Scope Q_scope.
Open Scope string_scope.

(** ** Strings of the host language *)

Module JS.

(** Outcome of evaluating code that may raise. *)
Inductive error : Type :=
  | TypeError.

Inductive completion (A : Type) : Type :=
  | Normal (a : A)
  | Throw (e : error).
Arguments Normal {A} a.
Arguments Throw {A} e.

Definition bind {A B : Type} (m : completion A) (k : A -> completion B)
  : completion B :=
  match m with
  | Normal a => k a
  | Throw e => Throw e
  end.

(** [xs.map(f)] when [f] may raise: elements are visited from the left and
    the first exception aborts the whole call. *)
Fixpoint mapM {A B : Type} (f : A -> completion B) (xs : list A)
  : completion (list B) :=
  match xs with
  | [] => Normal []
  | x :: xs' =>
      bind (f x) (fun y => bind (mapM f xs') (fun ys => Normal (y :: ys)))
  end.

(** White space of [String.prototype.trim] and of the class [\s], among the
    code units below 256: TAB, LF, VT, FF, CR, SPACE and NBSP. *)
Definition isWhiteSpace (c : ascii) : bool :=
  let n := nat_of_ascii c in
  (((9 <=? n) && (n <=? 13)) || (n =? 32) || (n =? 160))%nat.

(** Lower-case mapping of one code unit: [A-Z] and the Latin-1 capitals
    U+00C0..U+00DE (the multiplication sign U+00D7 excepted) move up by 32. *)
Definition toLowerCaseUnit (c : ascii) : ascii :=
  let n := nat_of_ascii c in
  if (((65 <=? n) && (n <=? 90))
      || ((192 <=? n) && (n <=? 222) && negb (n =? 215)))%nat
  then ascii_of_nat (n + 32)
  else c.

Fixpoint toLowerCase (s : string) : string :=
  match s with
  | EmptyString => EmptyString
  | String c s' => String (toLowerCaseUnit c) (toLowerCase s')
  end.

Fixpoint trimStart (s : string) : string :=
  match s with
  | EmptyString => EmptyString
  | String c s' => if isWhiteSpace c then trimStart s' else s
  end.

Fixpoint trimEnd (s : string) : string :=
  match s with
  | EmptyString => EmptyString
  | String c s' =>
      match trimEnd s' with
      | EmptyString => if isWhiteSpace c then EmptyString else String c EmptyString
      | r => String c r
      end
  end.

Definition trim (s : string) : string := trimEnd (trimStart s).

(** [s.split(sep)] for a one-unit separator: never the empty list. *)
Fixpoint split (sep : ascii) (s : string) : list string :=
  match s with
  | EmptyString => [EmptyString]
  | String c s' =>
      if Ascii.eqb c sep then EmptyString :: split sep s'
      else match split sep s' with
           | [] => [String c EmptyString]
           | field :: fields => String c field :: fields
           end
  end.

(** Truthiness of a string: [Boolean(s)], [!s]. *)
Definition truthy (s : string) : bool :=
  match s with
  | EmptyString => false
  | String _ _ => true
  end.

(** [s.replace(/\s+/g, "-")]: every maximal run of white space becomes one
    hyphen. [inRun] tells that the previous unit was white space. *)
Fixpoint replaceRuns (inRun : bool) (s : string) : string :=
  match s with
  | EmptyString => EmptyString
  | String c s' =>
      if isWhiteSpace c
      then if inRun then replaceRuns true s'
           else String "-" (replaceRuns true s')
      else String c (replaceRuns false s')
  end.

Definition replaceWhiteSpaceRuns (s : string) : string := replaceRuns false s.

(** The number nearest to an integer: the integer itself up to 2^53. *)
Definition ofZ (n : Z) : float :=
  SF2Prim (binary_normalize prec emax n 0 false).

(** The exact value of a finite number: its signed mantissa times two to
    its exponent. *)
Definition exactValue (x : float) : option Q :=
  match Prim2SF x with
  | S754_zero _ => Some 0%Q
  | S754_finite s m (Zneg k) =>
      Some (Qmake (if s then Zneg m else Zpos m) (Pos.pow 2 k))
  | S754_finite s m e =>
      Some (inject_Z ((if s then Zneg m else Zpos m) * 2 ^ e))
  | S754_infinity _ | S754_nan => None
  end.

(** The integer nearest to a finite number, the upper one when two are
    equally near: the floor of the exact value plus one half. *)
Definition nearestInteger (x : float) : option Z :=
  match Prim2SF x with
  | S754_zero _ => Some 0%Z
  | S754_finite s m (Zneg k) =>
      Some ((2 * (if s then Zneg m else Zpos m) + Zpos (Pos.pow 2 k))
            / Zpos (Pos.pow 2 (k + 1)))%Z
  | S754_finite s m e => Some ((if s then Zneg m else Zpos m) * 2 ^ e)%Z
  | S754_infinity _ | S754_nan => None
  end.

(** [Math.round]: NaN and the infinities are returned as they are; a
    finite number gives its nearest integer, as a number, and a result of
    zero has the sign of the argument. *)
Definition Math_round (x : float) : float :=
  match nearestInteger x with
  | Some 0%Z =>
      if PrimFloat.get_sign x then PrimFloat.neg_zero else PrimFloat.zero
  | Some n => ofZ n
  | None => x
  end.

Definition Math_floor (x : Q) : Z := Qfloor x.

Definition LF : ascii := ascii_of_nat 10.

(** [xs.join(sep)]. *)
Fixpoint join (sep : string) (xs : list string) : string :=
  match xs with
  | [] => EmptyString
  | [x] => x
  | x :: xs' => x ++ sep ++ join sep xs'
  end.

(** [c.toUpperCase()] for a one-unit string: [a-z] and the Latin-1 small
    letters U+00E0..U+00FE (the division sign U+00F7 excepted) move down by
    32, the sharp s U+00DF becomes "SS". The capitals of the micro sign
    U+00B5 and of U+00FF are code units above 255: [None], the strings of
    this development cannot hold them. *)
Definition toUpperCaseUnit (c : ascii) : option string :=
  let n := nat_of_ascii c in
  if (((97 <=? n) && (n <=? 122))
      || ((224 <=? n) && (n <=? 254) && negb (n =? 247)))%nat
  then Some (String (ascii_of_nat (n - 32)) EmptyString)
  else if (n =? 223)%nat then Some "SS"
  else if ((n =? 181) || (n =? 255))%nat then None
  else Some (String c EmptyString).

(** [xs.map(f)] in the option monad. *)
Fixpoint traverse {A B : Type} (f : A -> option B) (xs : list A)
  : option (list B) :=
  match xs with
  | [] => Some []
  | x :: xs' =>
      match f x, traverse f xs' with
      | Some y, Some ys => Some (y :: ys)
      | _, _ => None
      end
  end.

Definition SPACE : ascii := ascii_of_nat 32.

End JS.

Import JS.

(** ** City directory: [src/app/services/city.service.ts] *)

Module Coordinates.

(** The object [{ lat, lon }] returned by [getCoordinates]. *)
Record t (number : Type) : Type := mk { lat : number; lon : number }.
Arguments mk {number} lat lon.
Arguments lat {number} t.
Arguments lon {number} t.

End Coordinates.

Module CityService.

(** What a call leaves behind for the outside world to see: the requests it
    issued and the parses it ran. *)
Inductive event : Type :=
  | HttpGet (url : string)
  | Parse (data : string).

Section WithNumber.

(** The host's numbers and its conversion [Number(x)]; [None] stands for
    [undefined], the value of a destructured element that is missing. *)
Context {number : Type}.
Variable Number : option string -> number.

Record CityRecord : Type := {
  id : string;
  country : string;
  city : string;
  lat : number;
  lon : number;
  altitude : number
}.

(** The fields of the service: the [cities] signal and the [loaded] flag. *)
Record State : Type := {
  cities : list CityRecord;
  loaded : bool
}.

Definition init : State := {| cities := []; loaded := false |}.

(** The callback of the second [map] in [parse]: the first six elements of
    [line.split(';')] are bound by destructuring, missing ones to
    [undefined]; [city.toLowerCase()] raises when [city] is [undefined],
    that is when there are fewer than three fields. *)
Definition parseLine (line : string) : completion CityRecord :=
  match split ";" line with
  | id :: country :: city :: rest =>
      Normal {| id := id;
                country := country;
                city := toLowerCase city;
                lat := Number (nth_error rest 0);
                lon := Number (nth_error rest 1);
                altitude := Number (nth_error rest 2) |}
  | _ => Throw TypeError
  end.

(** The rows that reach [parseLine]: split on line feeds, header dropped,
    each row trimmed, empty rows dropped. *)
Definition rows (data : string) : list string :=
  filter truthy (map trim (tl (split LF data))).

Definition parse (data : string) : completion (list CityRecord) :=
  mapM parseLine (rows data).

(** [load()]: nothing when the flag is set, one request for the dataset
    otherwise. The flag is only set by the subscriber. *)
Definition load (s : State) : State * list event :=
  if loaded s then (s, []) else (s, [HttpGet "assets/data.csv"]).

(** The subscriber of [load], run when the dataset arrives. When [parse]
    raises, neither assignment is reached. *)
Definition load_next (s : State) (text : string)
  : State * list event * completion unit :=
  match parse text with
  | Normal records =>
      ({| cities := records; loaded := true |}, [Parse text], Normal tt)
  | Throw e => (s, [Parse text], Throw e)
  end.

Definition getCoordinates (s : State) (cityName : string)
  : option (Coordinates.t number) :=
  match find (fun c => String.eqb (city c) (toLowerCase cityName)) (cities s)
  with
  | Some c => Some (Coordinates.mk (lat c) (lon c))
  | None => None
  end.

(** Runs of the service: calls of [load] interleaved with arrivals of the
    dataset. [inFlight] counts the requests not answered yet; [log] is
    everything the service did, oldest first. *)
Record World : Type := {
  service : State;
  inFlight : nat;
  log : list event
}.

Inductive action : Type :=
  | CallLoad
  | Deliver (text : string).

Definition start : World := {| service := init; inFlight := 0; log := [] |}.

Definition step (w : World) (a : action) : World :=
  match a with
  | CallLoad =>
      let '(s', evs) := load (service w) in
      {| service := s';
         inFlight := inFlight w + List.length evs;
         log := log w ++ evs |}
  | Deliver text =>
      match inFlight w with
      | O => w
      | S n =>
          let '(s', evs, _) := load_next (service w) text in
          {| service := s'; inFlight := n; log := log w ++ evs |}
      end
  end.

Definition run (w : World) (script : list action) : World :=
  fold_left step script w.

End WithNumber.

Arguments CityRecord number : clear implicits.
Arguments State number : clear implicits.
Arguments World number : clear implicits.
Arguments init {number}.
Arguments start {number}.

End CityService.

(** ** Weather component, live revision: [src/app/weather/weather.component.ts] *)

Module Provider.

(** The member [current_weather] of the provider's answer. The component
    reads [temperature], [windspeed] and [weathercode]; [others] holds any
    further numeric member the provider sends (wind direction, humidity, ...). *)
Record CurrentWeather : Type := {
  temperature : float;
  windspeed : float;
  weathercode : Z;
  others : list (string * float)
}.

(** The body of a 2xx answer; [None] when it has no usable
    [current_weather] member ([undefined] or [null]). *)
Record Response : Type := {
  current_weather : option CurrentWeather
}.

(** How the outbound call settles: the observer's [next] or its [error]. *)
Inductive outcome : Type :=
  | Success (res : Response)
  | Failure.

End Provider.

Module WeatherComponent.

Record WeatherData : Type := {
  city : string;
  temperature : float;
  condition : string;
  humidity : float;
  windSpeed : float;
  icon : string
}.

Definition weatherCodeMap : list (Z * string) :=
  [ (0, "Clear"); (1, "Mainly Clear"); (2, "Partly Cloudy"); (3, "Cloudy");
    (45, "Fog"); (48, "Rime Fog"); (51, "Light Drizzle"); (53, "Drizzle");
    (61, "Rainy"); (63, "Heavy Rain"); (71, "Snow"); (80, "Rain Showers") ]%Z.

Definition weatherIconMap : list (Z * string) :=
  [ (0, "â˜€ï¸"); (1, "ğŸŒ¤ï¸"); (2, "â›…"); (3, "â˜ï¸");
    (45, "ğŸŒ«ï¸"); (48, "ğŸŒ«ï¸"); (51, "ğŸŒ¦ï¸");
    (61, "ğŸŒ§ï¸"); (71, "â„ï¸"); (80, "ğŸŒ§ï¸") ]%Z.

(** [table[code]] on an object whose own keys are the numerals of the table. *)
Fixpoint lookup (table : list (Z * string)) (code : Z) : option string :=
  match table with
  | [] => None
  | (k, v) :: table' => if Z.eqb k code then Some v else lookup table' code
  end.

(** [x ?? d]. *)
Definition orElse (x : option string) (d : string) : string :=
  match x with
  | Some v => v
  | None => d
  end.

(** The three signals of the component. *)
Record State : Type := {
  searchCity : string;
  isLoading : bool;
  currentWeather : option WeatherData
}.

Definition init : State :=
  {| searchCity := ""; isLoading := false; currentWeather := None |}.

Definition set_searchCity (v : string) (s : State) : State :=
  {| searchCity := v;
     isLoading := isLoading s;
     currentWeather := currentWeather s |}.

Definition set_isLoading (v : bool) (s : State) : State :=
  {| searchCity := searchCity s;
     isLoading := v;
     currentWeather := currentWeather s |}.

Definition set_currentWeather (v : option WeatherData) (s : State) : State :=
  {| searchCity := searchCity s;
     isLoading := isLoading s;
     currentWeather := v |}.

Definition temperatureF (s : State) : option float :=
  match currentWeather s with
  | None => None
  | Some weather => Some (Math_round (temperature weather * 9 / 5 + 32)%float)
  end.

Definition weatherConditionClass (s : State) : string :=
  match currentWeather s with
  | None => ""
  | Some weather => replaceWhiteSpaceRuns (toLowerCase (condition weather))
  end.

Definition onCityInput (value : string) (s : State) : State :=
  set_searchCity value s.

(** The [next] callback of the subscription: [current.temperature] raises
    when [current] is [undefined], before any signal is written. It reads
    [searchCity] when it runs. An exception raised here is reported to the
    host; it is not passed to the [error] callback. *)
Definition searchWeather_next (s : State) (res : Provider.Response)
  : State * completion unit :=
  match Provider.current_weather res with
  | None => (s, Throw TypeError)
  | Some current =>
      let s1 :=
        set_currentWeather
          (Some {| city := searchCity s;
                   temperature := Provider.temperature current;
                   condition :=
                     orElse (lookup weatherCodeMap (Provider.weathercode current))
                            "Unknown";
                   humidity := 0;
                   windSpeed := Provider.windspeed current;
                   icon := "ğŸŒ" |}) s in
      (set_isLoading false s1, Normal tt)
  end.

(** The [error] callback of the subscription. *)
Definition searchWeather_error (s : State) : State * completion unit :=
  (set_isLoading false s, Normal tt).

Section WithDirectory.

Context {number : Type}.

(** The outbound call, identified by the coordinates put in its query. *)
Inductive request : Type :=
  | Forecast (latitude longitude : number).

(** The synchronous part of [searchWeather()]: at most one request. *)
Definition searchWeather (directory : CityService.State number) (s : State)
  : State * list request :=
  let city := trim (toLowerCase (searchCity s)) in
  if negb (truthy city) then (s, [])
  else
    match CityService.getCoordinates directory city with
    | None => (s, [])
    | Some coords =>
        (set_isLoading true s,
         [Forecast (Coordinates.lat coords) (Coordinates.lon coords)])
    end.

Definition selectCity (directory : CityService.State number) (city : string)
  (s : State) : State * list request :=
  searchWeather directory (set_searchCity city s).

(** [ngOnInit()]: the component asks the service to load the dataset. *)
Definition ngOnInit (directory : CityService.State number)
  : CityService.State number * list CityService.event :=
  CityService.load directory.

(** Runs of the component against a directory that stays as it is: the user
    types, searches or picks a city, and the oldest pending call settles. *)
Record World : Type := {
  component : State;
  pending : list request
}.

Inductive action : Type :=
  | Input (text : string)
  | Submit
  | Select (city : string)
  | Settle (o : Provider.outcome).

Definition start : World := {| component := init; pending := [] |}.

Definition step (directory : CityService.State number) (w : World)
  (a : action) : World :=
  match a with
  | Input text =>
      {| component := onCityInput text (component w); pending := pending w |}
  | Submit =>
      let '(s', reqs) := searchWeather directory (component w) in
      {| component := s'; pending := pending w ++ reqs |}
  | Select city =>
      let '(s', reqs) := selectCity directory city (component w) in
      {| component := s'; pending := pending w ++ reqs |}
  | Settle o =>
      match pending w with
      | [] => w
      | _ :: rest =>
          let '(s', _) :=
            match o with
            | Provider.Success res => searchWeather_next (component w) res
            | Provider.Failure => searchWeather_error (component w)
            end in
          {| component := s'; pending := rest |}
      end
  end.

Definition run (directory : CityService.State number) (w : World)
  (script : list action) : World :=
  fold_left (step directory) script w.

End WithDirectory.

Arguments request number : clear implicits.
Arguments World number : clear implicits.
Arguments start {number}.

End WeatherComponent.

(** ** Weather component, mock revision (second half of the same file) *)

Module MockWeatherComponent.

Import WeatherComponent (WeatherData).

(** What [weatherDatabase[key]] can evaluate to besides [undefined]: a
    record of the table, or a member inherited from [Object.prototype]
    (a function object, or the prototype itself for [__proto__]). *)
Inductive value : Type :=
  | Record_ (weather : WeatherData)
  | Inherited (name : string).

Definition mkWeather (city : string) (temperature : float) (condition : string)
  (humidity windSpeed : float) (icon : string) : WeatherData :=
  {| WeatherComponent.city := city;
     WeatherComponent.temperature := temperature;
     WeatherComponent.condition := condition;
     WeatherComponent.humidity := humidity;
     WeatherComponent.windSpeed := windSpeed;
     WeatherComponent.icon := icon |}.

(** The own properties of the object literal. *)
Definition weatherDatabase : list (string * WeatherData) :=
  [ ("london", mkWeather "London" 15 "Cloudy" 75 20 "☁️");
    ("new york", mkWeather "New York" 22 "Sunny" 60 15 "☀️");
    ("paris", mkWeather "Paris" 18 "Partly Cloudy" 65 12 "⛅");
    ("tokyo", mkWeather "Tokyo" 25 "Clear" 55 10 "🌤️");
    ("sydney", mkWeather "Sydney" 28 "Sunny" 50 18 "☀️");
    ("seattle", mkWeather "Seattle" 12 "Rainy" 85 25 "🌧️") ].

(** The property names of [Object.prototype], which every object literal
    inherits. *)
Definition objectPrototype : list string :=
  [ "constructor"; "__defineGetter__"; "__defineSetter__"; "hasOwnProperty";
    "__lookupGetter__"; "__lookupSetter__"; "isPrototypeOf";
    "propertyIsEnumerable"; "toString"; "valueOf"; "__proto__";
    "toLocaleString" ].

Fixpoint ownProperty (table : list (string * WeatherData)) (key : string)
  : option WeatherData :=
  match table with
  | [] => None
  | (k, v) :: table' => if String.eqb k key then Some v else ownProperty table' key
  end.

(** [this.weatherDatabase[key]]: own properties first, then the prototype;
    [None] is [undefined]. Every other result is truthy. *)
Definition getProperty (key : string) : option value :=
  match ownProperty weatherDatabase key with
  | Some weather => Some (Record_ weather)
  | None =>
      if existsb (String.eqb key) objectPrototype
      then Some (Inherited key)
      else None
  end.

Record State : Type := {
  searchCity : string;
  isLoading : bool;
  currentWeather : option value
}.

Definition init : State :=
  {| searchCity := ""; isLoading := false; currentWeather := None |}.

(** A pending [setTimeout]: the callback's captured [city] and the delay. *)
Inductive timer : Type :=
  | SetTimeout (city : string) (delay : nat).

(** Three successive results of [Math.random()], in the order in which the
    object literal evaluates them, each held by its exact value. *)
Record Draws : Type := {
  first : Q;
  second : Q;
  third : Q
}.

(** The synchronous part of [searchWeather()]. *)
Definition searchWeather (s : State) : State * list timer :=
  let city := trim (toLowerCase (searchCity s)) in
  if negb (truthy city) then (s, [])
  else
    ({| searchCity := searchCity s;
        isLoading := true;
        currentWeather := currentWeather s |},
     [SetTimeout city 800]).

(** The callback given to [setTimeout]. *)
Definition searchWeather_timeout (city : string) (random : Draws) (s : State)
  : State :=
  let published :=
    match getProperty city with
    | Some weather => weather
    | None =>
        Record_
          (mkWeather (searchCity s)
             (ofZ (Math_floor (first random * 30)%Q + 10))
             "Unknown"
             (ofZ (Math_floor (second random * 40)%Q + 40))
             (ofZ (Math_floor (third random * 20)%Q + 5))
             "🌍")
    end in
  {| searchCity := searchCity s;
     isLoading := false;
     currentWeather := Some published |}.

Definition onCityInput (value : string) (s : State) : State :=
  {| searchCity := value;
     isLoading := isLoading s;
     currentWeather := currentWeather s |}.

Definition selectCity (city : string) (s : State) : State * list timer :=
  searchWeather (onCityInput city s).

(** The inner callback of [getAvailableCities]:
    [word.charAt(0).toUpperCase() + word.slice(1)]. *)
Definition titleWord (word : string) : option string :=
  match word with
  | EmptyString => Some EmptyString
  | String c rest =>
      match toUpperCaseUnit c with
      | Some upper => Some (upper ++ rest)
      | None => None
      end
  end.

(** The outer callback: the words between single spaces, each with its
    first unit in upper case, joined by single spaces again. *)
Definition titleCase (city : string) : option string :=
  match traverse titleWord (split SPACE city) with
  | Some words => Some (join " " words)
  | None => None
  end.

(** [getAvailableCities()]: [Object.keys] lists the own keys of the table
    in the order of the literal. The live revision has the same table and
    the same method. *)
Definition getAvailableCities : option (list string) :=
  traverse titleCase (map fst weatherDatabase).

End MockWeatherComponent.

(** ** A host instance for running the code on concrete datasets *)

Module Sample.

(** Numbers with [NaN]. *)
Inductive number : Type :=
  | NaN
  | Finite (q : Q).

Definition digit (c : ascii) : option Z :=
  let n := nat_of_ascii c in
  if ((48 <=? n) && (n <=? 57))%nat then Some (Z.of_nat (n - 48)) else None.

Fixpoint digits (acc : Z) (s : string) : option Z :=
  match s with
  | EmptyString => Some acc
  | String c s' =>
      match digit c with
      | Some d => digits (10 * acc + d) s'
      | None => None
      end
  end.

Definition unsignedDecimal (s : string) : number :=
  match split "." s with
  | [whole] =>
      match whole, digits 0 whole with
      | String _ _, Some n => Finite (inject_Z n)
      | _, _ => NaN
      end
  | [whole; frac] =>
      match digits 0 whole, digits 0 frac with
      | Some n, Some m =>
          if negb (truthy whole) && negb (truthy frac) then NaN
          else Finite (Qred (inject_Z n
                             + inject_Z m / inject_Z (10 ^ Z.of_nat (String.length frac))))
      | _, _ => NaN
      end
  | _ => NaN
  end.

Definition negate (x : number) : number :=
  match x with
  | NaN => NaN
  | Finite q => Finite (Qred (- q))
  end.

(** [Number(x)] on [undefined], on blank strings and on plain decimal
    literals (sign, digits, fraction), which is all the sample datasets
    hold; any other text is [NaN] here. *)
Definition Number (x : option string) : number :=
  match x with
  | None => NaN
  | Some text =>
      match trim text with
      | EmptyString => Finite 0
      | String "-" rest => negate (unsignedDecimal rest)
      | String "+" rest => unsignedDecimal rest
      | rest => unsignedDecimal rest
      end
  end.

Definition nl : string := String LF EmptyString.

Definition header : string := "id;country;city;lat;lon;altitude".

(** The dataset of the end-to-end scenario. *)
Definition london : string := header ++ nl ++ "1;UK;london;51.5;-0.12;35".

(** The directory once [london] has been delivered to the subscriber of
    [load]. *)
Definition directory : CityService.State number :=
  fst (fst (CityService.load_next Number CityService.init london)).

(** Rows of four and of seven fields between two rows of six, and a blank
    row. *)
Definition ragged : string :=
  header ++ nl ++ "1;UK;london;51.5;-0.12;35"
         ++ nl ++ "2;FR;Paris;48.85"
         ++ nl ++ "   "
         ++ nl ++ "3;JP;tokyo;35.68;139.69;40;extra"
         ++ nl ++ "4;AU;sydney;-33.87;151.21;58".

(** A row of six fields whose city has a blank on either side. *)
Definition padded : string := header ++ nl ++ "1;UK; London ;51.5;-0.12;35".

(** A row of two fields after a row of six. *)
Definition truncated : string :=
  header ++ nl ++ "1;UK;london;51.5;-0.12;35" ++ nl ++ "2;FR".

End Sample.

(** ** Vocabulary of the specification *)

Module Spec.

Section Directory.

Context {number : Type}.
Variable Number : option string -> number.

Import CityService.

(** [c] is the first record of [records] whose key is [key]. *)
Definition firstMatch (key : string) (records : list (CityRecord number))
  (c : CityRecord number) : Prop :=
  exists before after,
    records = (before ++ c :: after)%list
    /\ city c = key
    /\ Forall (fun c' => city c' <> key) before.

(** [getCoordinates] answers with the first record whose key is the name
    once normalized by [normalize], and with nothing when there is none. *)
Definition resolvesBy (normalize : string -> string)
  (s : State number) (cityName : string) : Prop :=
  match getCoordinates s cityName with
  | Some coords =>
      exists c, firstMatch (normalize cityName) (cities s) c
                /\ coords = Coordinates.mk (lat c) (lon c)
  | None => Forall (fun c => city c <> normalize cityName) (cities s)
  end.




End Directory.

(** White space only. *)
Fixpoint allWhiteSpace (s : string) : bool :=
  match s with
  | EmptyString => true
  | String c s' => isWhiteSpace c && allWhiteSpace s'
  end.

(** No white space at all. *)
Fixpoint noWhiteSpace (s : string) : bool :=
  match s with
  | EmptyString => true
  | String c s' => negb (isWhiteSpace c) && noWhiteSpace s'
  end.

Definition startsWithWhiteSpace (s : string) : bool :=
  match s with
  | EmptyString => false
  | String c _ => isWhiteSpace c
  end.

Fixpoint endsWithWhiteSpace (s : string) : bool :=
  match s with
  | EmptyString => false
  | String c EmptyString => isWhiteSpace c
  | String _ s' => endsWithWhiteSpace s'
  end.

Section SearchRuns.

Context {number : Type}.

Import WeatherComponent.

(** One search from the initial component: the user types [typed] and
    searches, edits the search box ([edits], oldest first) while the call
    is pending, and the call settles with [o]. *)
Definition searchRun (directory : CityService.State number)
  (typed : string) (edits : list string) (o : Provider.outcome)
  : World number :=
  run directory start
    (([Input typed; Submit] ++ map Input edits) ++ [Settle o]).

(** Reading of "the published record has the originally typed text as its
    city". *)
Definition publishesTypedCity (directory : CityService.State number)
  (typed : string) (edits : list string) (res : Provider.Response) : Prop :=
  exists weather,
    currentWeather (component (searchRun directory typed edits
                                 (Provider.Success res)))
    = Some weather
    /\ city weather = typed.

(** The record held by the component, if any, has the literal of the
    [next] callback as its icon and a humidity of zero. *)
Definition constantsOnly (w : World number) : Prop :=
  match currentWeather (component w) with
  | None => True
  | Some weather => icon weather = "ğŸŒ" /\ humidity weather = 0%float
  end.

End SearchRuns.


Section Labels.

Context {number : Type}.


End Labels.

(** No unit equal to [sep]. *)
Fixpoint free (sep : ascii) (s : string) : bool :=
  match s with
  | EmptyString => true
  | String c s' => negb (Ascii.eqb c sep) && free sep s'
  end.

(** Code units below 128 only. *)
Fixpoint isAscii (s : string) : bool :=
  match s with
  | EmptyString => true
  | String c s' => (nat_of_ascii c <? 128)%nat && isAscii s'
  end.

(** Rounding of an exact value to the nearest integer, the upper one when
    two are equally near. *)
Definition roundHalfUp (x : Q) : Z := Qfloor (x + (1 # 2)).

(** Reading of "the Fahrenheit value equals round(t * 9/5 + 32)" with the
    arithmetic taken exactly: the value is the integer nearest to the
    exact value of that expression. *)
Definition fahrenheitOfExactValue (s : WeatherComponent.State) : Prop :=
  match WeatherComponent.currentWeather s with
  | None => WeatherComponent.temperatureF s = None
  | Some weather =>
      forall t : Q,
        exactValue (WeatherComponent.temperature weather) = Some t ->
        WeatherComponent.temperatureF s
        = Some (ofZ (roundHalfUp (t * 9 / 5 + 32)%Q))
  end.

(** The answer of the end-to-end scenario. *)
Definition cloudy15 : Provider.Response :=
  {| Provider.current_weather :=
       Some {| Provider.temperature := 15;
               Provider.windspeed := 20;
               Provider.weathercode := 3;
               Provider.others := [] |} |}.

(** A 2xx answer whose body has no [current_weather]. *)
Definition emptyBody : Provider.Response :=
  {| Provider.current_weather := None |}.

End Spec.

(** * Properties *)

(** ** Strings *)

Example split_sample :
  split ";" "1;UK;london;51.5;-0.12;35"
  = ["1"; "UK"; "london"; "51.5"; "-0.12"; "35"].
Proof. reflexivity. Qed.

Example trim_sample : trim "  New York  " = "New York".
Proof. reflexivity. Qed.

Example toLowerCase_sample : toLowerCase "New York" = "new york".
Proof. reflexivity. Qed.

Example replace_sample :
  replaceWhiteSpaceRuns "partly   cloudy" = "partly-cloudy".
Proof. reflexivity. Qed.

Ltac by_code_unit c :=
  destruct c as [[] [] [] [] [] [] [] []]; reflexivity.

Lemma toLowerCaseUnit_idempotent (c : ascii) :
  toLowerCaseUnit (toLowerCaseUnit c) = toLowerCaseUnit c.
Proof. by_code_unit c. Qed.

Lemma isWhiteSpace_toLowerCaseUnit (c : ascii) :
  isWhiteSpace (toLowerCaseUnit c) = isWhiteSpace c.
Proof. by_code_unit c. Qed.

Lemma toLowerCase_idempotent (s : string) :
  toLowerCase (toLowerCase s) = toLowerCase s.
Proof.
  induction s as [|c s IH]; simpl.
  - reflexivity.
  - now rewrite toLowerCaseUnit_idempotent, IH.
Qed.

Lemma trimStart_toLowerCase (s : string) :
  trimStart (toLowerCase s) = toLowerCase (trimStart s).
Proof.
  induction s as [|c s IH]; simpl.
  - reflexivity.
  - rewrite isWhiteSpace_toLowerCaseUnit.
    destruct (isWhiteSpace c); [exact IH | reflexivity].
Qed.

Lemma trimEnd_toLowerCase (s : string) :
  trimEnd (toLowerCase s) = toLowerCase (trimEnd s).
Proof.
  induction s as [|c s IH]; simpl.
  - reflexivity.
  - rewrite IH, isWhiteSpace_toLowerCaseUnit.
    destruct (trimEnd s); simpl.
    + now destruct (isWhiteSpace c).
    + reflexivity.
Qed.

Lemma trim_toLowerCase (s : string) :
  trim (toLowerCase s) = toLowerCase (trim s).
Proof.
  unfold trim. now rewrite trimStart_toLowerCase, trimEnd_toLowerCase.
Qed.

(** The key handed over by [searchWeather] is left alone by the second
    lower-casing, the one in [getCoordinates]. *)
Lemma toLowerCase_normalized (s : string) :
  toLowerCase (trim (toLowerCase s)) = trim (toLowerCase s).
Proof.
  now rewrite trim_toLowerCase, toLowerCase_idempotent.
Qed.

Lemma truthy_false (s : string) : truthy s = false <-> s = "".
Proof. destruct s; simpl; split; congruence. Qed.

(** ** City directory *)

Section DirectoryProperties.

Context {number : Type}.
Variable Number : option string -> number.

Import CityService.

Lemma find_first {A : Type} (f : A -> bool) (l : list A) :
  match find f l with
  | Some x =>
      exists before after,
        l = (before ++ x :: after)%list
        /\ f x = true
        /\ Forall (fun y => f y = false) before
  | None => Forall (fun y => f y = false) l
  end.
Proof.
  induction l as [|a l IH]; simpl.
  - constructor.
  - destruct (f a) eqn:Fa.
    + exists [], l. repeat split; [assumption | constructor].
    + destruct (find f l) as [x|].
      * destruct IH as (before & after & -> & Fx & Hb).
        exists (a :: before), after.
        repeat split; [assumption | now constructor].
      * now constructor.
Qed.

(** The scan of [getCoordinates] compares the stored keys with the
    lower-cased name, nothing else being done to the name. *)
Lemma getCoordinates_resolves (s : State number) (cityName : string) :
  Spec.resolvesBy toLowerCase s cityName.
Proof.
  unfold Spec.resolvesBy, getCoordinates.
  pose proof (find_first
                (fun c => String.eqb (city c) (toLowerCase cityName))
                (cities s)) as H.
  destruct (find _ (cities s)) as [c|].
  - destruct H as (before & after & Hl & Hc & Hb).
    exists c. split; [|reflexivity].
    exists before, after. repeat split; try assumption.
    + now apply String.eqb_eq.
    + eapply Forall_impl; [|exact Hb].
      intros c' Hc'. now apply String.eqb_neq.
  - eapply Forall_impl; [|exact H].
    intros c' Hc'. now apply String.eqb_neq.
Qed.

(** Every key stored by [parseLine] is in lower case. *)
Lemma parseLine_key (line : string) (r : CityRecord number) :
  parseLine Number line = Normal r -> toLowerCase (city r) = city r.
Proof.
  unfold parseLine.
  destruct (split ";" line) as [|f0 [|f1 [|f2 rest]]]; try discriminate.
  intros [= <-]. simpl. apply toLowerCase_idempotent.
Qed.

End DirectoryProperties.

Section Resolution.

Context {number : Type}.

Import CityService.

(** C1 (amended). [getCoordinates] returns the coordinates of the first
    stored record whose key equals the lower-cased name, and nothing when
    there is none: it does not trim. Trimming is done by its caller:
    [searchWeather] looks up the lower-cased and trimmed search text, and
    resolves to the first record stored under exactly that text; it makes
    no request when that text is empty or is no stored key. *)
Theorem getCoordinates_first_lowercase_match
  (s : State number) (cityName : string) :
  Spec.resolvesBy toLowerCase s cityName
  /\ forall w : WeatherComponent.State,
       let key := trim (toLowerCase (WeatherComponent.searchCity w)) in
       (key = "" /\ WeatherComponent.searchWeather s w = (w, []))
       \/ match snd (WeatherComponent.searchWeather s w) with
          | [] => Forall (fun c => city c <> key) (cities s)
          | [WeatherComponent.Forecast latitude longitude] =>
              exists c, Spec.firstMatch key (cities s) c
                        /\ latitude = lat c /\ longitude = lon c
          | _ => False
          end.
Proof.
  split; [apply getCoordinates_resolves|].
  intros w key. unfold WeatherComponent.searchWeather. fold key.
  destruct (truthy key) eqn:Hk; simpl.
  - right.
    pose proof (getCoordinates_resolves s key) as H.
    unfold Spec.resolvesBy in H.
    unfold key in H at 2 3. rewrite toLowerCase_normalized in H. fold key in H.
    destruct (getCoordinates s key) as [coords|]; simpl.
    + destruct H as (c & Hc & ->). exists c. now repeat split.
    + exact H.
  - left. split; [now apply truthy_false | reflexivity].
Qed.

End Resolution.

(** C1 (as stated) fails: the directory holds the key [london], which is
    the lower-cased and trimmed form of the name, and the name with its
    surrounding blanks is not resolved. *)
Lemma getCoordinates_does_not_trim :
  ~ Spec.resolvesBy (fun name => trim (toLowerCase name))
      Sample.directory " London ".
Proof.
  unfold Spec.resolvesBy.
  change (CityService.getCoordinates Sample.directory " London ")
    with (@None (Coordinates.t Sample.number)).
  intros H. inversion H as [|c rest Hc _]; subst.
  apply Hc. reflexivity.
Qed.

(** ** Parsing the dataset *)

Section ParseProperties.

Context {number : Type}.
Variable Number : option string -> number.

Import CityService.


Lemma mapM_Throw {A B : Type} (f : A -> completion B) (xs : list A)
  (bad : A) (e : error) :
  In bad xs -> f bad = Throw e -> exists e', mapM f xs = Throw e'.
Proof.
  induction xs as [|x xs IH]; simpl; [contradiction|].
  intros [-> | Hin] Hbad.
  - rewrite Hbad. simpl. now exists e.
  - destruct (f x) as [y|e0]; simpl; [|now exists e0].
    destruct (IH Hin Hbad) as (e' & ->). simpl. now exists e'.
Qed.


(** A row of fewer than three fields makes the callback raise. *)
Lemma parseLine_short_row (row : string) :
  List.length (split ";" row) < 3 -> parseLine Number row = Throw TypeError.
Proof.
  unfold parseLine.
  destruct (split ";" row) as [|f0 [|f1 [|f2 rest]]]; simpl; try lia;
    reflexivity.
Qed.

(** One such row is enough for [parse] to raise: the records of the other
    rows are lost with it, and the subscriber of [load] leaves the service
    as it was. *)
Lemma parse_short_row_raises (data row : string) :
  In row (rows data) -> List.length (split ";" row) < 3 ->
  exists e, parse Number data = Throw e.
Proof.
  intros Hin Hshort. unfold parse.
  eapply mapM_Throw; [exact Hin | now apply parseLine_short_row].
Qed.

Lemma load_next_raises (s : State number) (text : string) (e : error) :
  parse Number text = Throw e ->
  load_next Number s text = (s, [Parse text], Throw e).
Proof. unfold load_next. now intros ->. Qed.



End ParseProperties.



Example parse_ragged_cities :
  match CityService.parse Sample.Number Sample.ragged with
  | Normal records => map CityService.city records
  | Throw _ => []
  end = ["london"; "paris"; "tokyo"; "sydney"].
Proof. reflexivity. Qed.

Example parse_truncated :
  CityService.parse Sample.Number Sample.truncated = Throw TypeError.
Proof. reflexivity. Qed.

(** ** Loading the directory *)

Section LoadProperties.

Context {number : Type}.
Variable Number : option string -> number.

Import CityService.

(** Once the flag is set, a call of [load] changes nothing and asks for
    nothing. *)
Lemma load_when_loaded (w : World number) :
  loaded (service w) = true -> step Number w CallLoad = w.
Proof.
  intros Hl. destruct w as [s n l]. simpl in *.
  unfold load. rewrite Hl. simpl.
  now rewrite Nat.add_0_r, app_nil_r.
Qed.

Lemma run_loads_when_loaded (w : World number) (n : nat) :
  loaded (service w) = true -> run Number w (repeat CallLoad n) = w.
Proof.
  intros Hl. induction n as [|n IH]; simpl.
  - reflexivity.
  - fold (step Number w CallLoad). rewrite load_when_loaded by assumption.
    exact IH.
Qed.

Lemma run_first_load (text : string) (records : list (CityRecord number)) :
  parse Number text = Normal records ->
  run Number start [CallLoad; Deliver text]
  = {| service := {| cities := records; loaded := true |};
       inFlight := 0;
       log := [HttpGet "assets/data.csv"; Parse text] |}.
Proof.
  intros Hp. unfold run. simpl. unfold load_next. now rewrite Hp.
Qed.

(** C8. After a first [load()] whose dataset has arrived and been parsed,
    any number of further [load()] calls leaves the service, the pending
    requests and the record of what was done as they were: the dataset was
    fetched once and parsed once, and the directory holds the records of
    that one parse. *)
Theorem load_idempotent (text : string) (records : list (CityRecord number))
  (n : nat) :
  parse Number text = Normal records ->
  let once := run Number start [CallLoad; Deliver text] in
  run Number start ([CallLoad; Deliver text] ++ repeat CallLoad (S n)) = once
  /\ log once = [HttpGet "assets/data.csv"; Parse text]
  /\ inFlight once = 0
  /\ service once = {| cities := records; loaded := true |}.
Proof.
  intros Hp once. unfold run at 1. rewrite fold_left_app.
  fold (run Number start [CallLoad; Deliver text]). fold once.
  fold (run Number once (repeat CallLoad (S n))).
  assert (Honce : once = {| service := {| cities := records; loaded := true |};
                            inFlight := 0;
                            log := [HttpGet "assets/data.csv"; Parse text] |})
    by (now apply run_first_load).
  split.
  - apply run_loads_when_loaded. now rewrite Honce.
  - now rewrite Honce.
Qed.

End LoadProperties.

(** C8 on the dataset of the end-to-end scenario. *)
Lemma load_idempotent_witness :
  let once :=
    CityService.run Sample.Number CityService.start
      [CityService.CallLoad; CityService.Deliver Sample.london] in
  CityService.run Sample.Number CityService.start
    [CityService.CallLoad; CityService.Deliver Sample.london;
     CityService.CallLoad]
  = once
  /\ CityService.log once
     = [CityService.HttpGet "assets/data.csv"; CityService.Parse Sample.london]
  /\ CityService.inFlight once = 0
  /\ CityService.service once = Sample.directory.
Proof.
  exact (load_idempotent Sample.Number Sample.london
           (CityService.cities Sample.directory) 0 eq_refl).
Defined.

(** ** Weather component, live revision *)

Section ComponentProperties.

Context {number : Type}.
Variable Number : option string -> number.
Variable directory : CityService.State number.

Import WeatherComponent.

Lemma step_settle_failure (w : World number) :
  step directory w (Settle Provider.Failure)
  = match pending w with
    | [] => w
    | _ :: rest =>
        {| component := set_isLoading false (component w); pending := rest |}
    end.
Proof. simpl. now destruct (pending w). Qed.

Lemma step_settle_success (w : World number) (current : Provider.CurrentWeather) :
  step directory w
    (Settle (Provider.Success {| Provider.current_weather := Some current |}))
  = match pending w with
    | [] => w
    | _ :: rest =>
        {| component :=
             fst (searchWeather_next (component w)
                    {| Provider.current_weather := Some current |});
           pending := rest |}
    end.
Proof. simpl. now destruct (pending w). Qed.

(** A body without [current_weather] makes the [next] callback raise before
    it writes any signal. *)
Lemma searchWeather_next_raises (s : State) :
  searchWeather_next s Spec.emptyBody = (s, Throw TypeError).
Proof. reflexivity. Qed.

(** The two callbacks clear the busy indicator when they run to their end. *)
Lemma searchWeather_next_clears (s : State) (current : Provider.CurrentWeather) :
  isLoading (fst (searchWeather_next s
                    {| Provider.current_weather := Some current |})) = false.
Proof. reflexivity. Qed.

Lemma searchWeather_error_clears (s : State) :
  isLoading (fst (searchWeather_error s)) = false.
Proof. reflexivity. Qed.

Lemma last_cons {A : Type} (x : A) (l : list A) (d : A) :
  last (x :: l) d = last l x.
Proof.
  revert x d. induction l as [|y l IH]; intros x d.
  - reflexivity.
  - change (last (x :: y :: l) d) with (last (y :: l) d).
    now rewrite (IH y d), (IH y x).
Qed.

(** The edits of the search box touch nothing but the search text. *)
Lemma run_edits (w : World number) (edits : list string) :
  run directory w (map Input edits)
  = {| component := set_searchCity (last edits (searchCity (component w)))
                      (component w);
       pending := pending w |}.
Proof.
  revert w. induction edits as [|e edits IH]; intros [[t b r] p].
  - reflexivity.
  - simpl map. unfold run in *. simpl fold_left. rewrite IH.
    cbn [component pending searchCity].
    rewrite (last_cons e edits t). reflexivity.
Qed.

(** C5. When the oldest pending call fails, the component keeps its
    published record and its search text; with a call pending the world
    after the failure is the world before it with the busy indicator
    cleared and that call gone. A whole search that ends in a failure
    leaves the component as it was, busy indicator apart. *)
Theorem transport_failure_keeps_record (w : World number) :
  let w' := step directory w (Settle Provider.Failure) in
  match pending w with
  | [] => w' = w
  | _ :: rest =>
      w' = {| component := set_isLoading false (component w); pending := rest |}
  end
  /\ currentWeather (component w') = currentWeather (component w)
  /\ searchCity (component w') = searchCity (component w)
  /\ forall s : State,
       let final :=
         run directory {| component := s; pending := [] |}
           [Submit; Settle Provider.Failure] in
       currentWeather (component final) = currentWeather s
       /\ pending final = []
       /\ match snd (searchWeather directory s) with
          | [] => component final = s
          | _ :: _ => component final = set_isLoading false s
          end.
Proof.
  intros w'. unfold w'. rewrite step_settle_failure.
  split; [|split; [|split]].
  - now destruct (pending w).
  - now destruct (pending w).
  - now destruct (pending w).
  - intros s. cbv zeta. unfold run. simpl fold_left.
    unfold searchWeather.
    destruct (negb (truthy (trim (toLowerCase (searchCity s))))); simpl.
    + now repeat split.
    + destruct (CityService.getCoordinates directory
                  (trim (toLowerCase (searchCity s)))); simpl.
      * now repeat split.
      * now repeat split.
Qed.

End ComponentProperties.

Section SearchProperties.

Context {number : Type}.
Variable directory : CityService.State number.

Import WeatherComponent.

Lemma lookup_Some_In (table : list (Z * string)) (code : Z) (label : string) :
  lookup table code = Some label -> In (code, label) table.
Proof.
  induction table as [|[k v] table IH]; simpl; [discriminate|].
  destruct (Z.eqb_spec k code) as [-> | _].
  - intros [= ->]. now left.
  - intros H. right. now apply IH.
Qed.

Lemma lookup_weatherCodeMap (code : Z) (label : string) :
  In (code, label) weatherCodeMap -> lookup weatherCodeMap code = Some label.
Proof.
  unfold weatherCodeMap. simpl In.
  intros H.
  repeat (destruct H as [H | H]; [injection H as <- <-; reflexivity|]).
  contradiction.
Qed.

(** A key of the directory that is already normalized is found. *)
Lemma getCoordinates_known_key (key : string) :
  toLowerCase key = key ->
  In key (map CityService.city (CityService.cities directory)) ->
  exists coords, CityService.getCoordinates directory key = Some coords.
Proof.
  intros Hk Hin. unfold CityService.getCoordinates. rewrite Hk.
  destruct (find _ (CityService.cities directory)) as [c|] eqn:Hf.
  - now eexists.
  - apply in_map_iff in Hin. destruct Hin as (c & Hc & Hin).
    pose proof (find_none _ _ Hf c Hin) as Hn. simpl in Hn.
    rewrite Hc, String.eqb_refl in Hn. discriminate.
Qed.

(** The world when the call of a resolved search is about to settle. *)
Lemma run_until_settle (typed : string) (edits : list string) :
  let key := trim (toLowerCase typed) in
  key <> "" ->
  In key (map CityService.city (CityService.cities directory)) ->
  exists req,
    run directory start ([Input typed; Submit] ++ map Input edits)
    = {| component :=
           {| searchCity := last edits typed;
              isLoading := true;
              currentWeather := None |};
         pending := [req] |}.
Proof.
  intros key Hne Hin.
  destruct (getCoordinates_known_key key (toLowerCase_normalized typed) Hin)
    as (coords & Hco).
  exists (Forecast (Coordinates.lat coords) (Coordinates.lon coords)).
  unfold run. rewrite fold_left_app.
  fold (run directory (fold_left (step directory) [Input typed; Submit] start)
          (map Input edits)).
  rewrite run_edits. simpl fold_left.
  unfold searchWeather. cbn [onCityInput set_searchCity searchCity component start init].
  fold key. rewrite Hco.
  destruct (truthy key) eqn:Ht.
  - reflexivity.
  - apply truthy_false in Ht. contradiction.
Qed.

Lemma searchRun_publishes (typed : string) (edits : list string)
  (current : Provider.CurrentWeather) :
  let key := trim (toLowerCase typed) in
  key <> "" ->
  In key (map CityService.city (CityService.cities directory)) ->
  Spec.searchRun directory typed edits
    (Provider.Success {| Provider.current_weather := Some current |})
  = {| component :=
         fst (searchWeather_next
                {| searchCity := last edits typed;
                   isLoading := true;
                   currentWeather := None |}
                {| Provider.current_weather := Some current |});
       pending := [] |}.
Proof.
  intros key Hne Hin.
  destruct (run_until_settle typed edits Hne Hin) as (req & Hrun).
  unfold Spec.searchRun, run in *. rewrite fold_left_app, Hrun. reflexivity.
Qed.

Lemma step_constantsOnly (w : World number) (a : action) :
  Spec.constantsOnly w -> Spec.constantsOnly (step directory w a).
Proof.
  unfold Spec.constantsOnly. intros Hw. destruct a as [text| |name|o]; simpl.
  - exact Hw.
  - unfold searchWeather.
    destruct (negb _); [exact Hw|].
    destruct (CityService.getCoordinates _ _); exact Hw.
  - unfold selectCity, searchWeather. simpl.
    destruct (negb _); [exact Hw|].
    destruct (CityService.getCoordinates _ _); exact Hw.
  - destruct (pending w) as [|req rest]; [exact Hw|].
    destruct o as [[[current|]]|]; simpl; try exact Hw.
    now split.
Qed.

Lemma run_constantsOnly (script : list action) (w : World number) :
  Spec.constantsOnly w -> Spec.constantsOnly (run directory w script).
Proof.
  revert w. induction script as [|a script IH]; intros w Hw.
  - exact Hw.
  - apply (IH (step directory w a)). now apply step_constantsOnly.
Qed.

End SearchProperties.

Section PublishedRecord.

Context {number : Type}.
Variable Number : option string -> number.

Import WeatherComponent.

(** C4 (amended). When the provider answers with a [current_weather], the
    published record has: as its city the text of the search box when the
    answer is handled -- for a search from the initial component the text
    that was typed, not its normalized form, unless the box was edited
    while the call was pending, in which case it is the last edit --, the answer's
    temperature and wind speed, the label of the answer's code in
    [weatherCodeMap] or "Unknown" when the code is not in it, and a
    humidity of zero; the busy indicator is cleared. With the dataset row
    [1;UK;london;51.5;-0.12;35] and the answer of the scenario, searching
    "London" publishes London, 15, Cloudy, 20, 0, with 59 degrees
    Fahrenheit and the class "cloudy". *)
Theorem published_record_fields :
  (forall (s : State) (current : Provider.CurrentWeather),
      let handled :=
        fst (searchWeather_next s
               {| Provider.current_weather := Some current |}) in
      exists weather,
        currentWeather handled = Some weather
        /\ city weather = searchCity s
        /\ searchCity handled = searchCity s
        /\ temperature weather = Provider.temperature current
        /\ windSpeed weather = Provider.windspeed current
        /\ humidity weather = 0%float
        /\ (forall label,
              In (Provider.weathercode current, label) weatherCodeMap ->
              condition weather = label)
        /\ ((forall label,
               ~ In (Provider.weathercode current, label) weatherCodeMap) ->
            condition weather = "Unknown")
        /\ isLoading handled = false)
  /\ (forall (directory : CityService.State number) (typed : string)
          (edits : list string) (current : Provider.CurrentWeather),
      trim (toLowerCase typed) <> "" ->
      In (trim (toLowerCase typed))
         (map CityService.city (CityService.cities directory)) ->
      let final :=
        component
          (Spec.searchRun directory typed edits
             (Provider.Success {| Provider.current_weather := Some current |})) in
      exists weather,
        currentWeather final = Some weather
        /\ city weather = last edits typed
        /\ temperature weather = Provider.temperature current
        /\ windSpeed weather = Provider.windspeed current
        /\ humidity weather = 0%float
        /\ (forall label,
              In (Provider.weathercode current, label) weatherCodeMap ->
              condition weather = label)
        /\ ((forall label,
               ~ In (Provider.weathercode current, label) weatherCodeMap) ->
            condition weather = "Unknown")
        /\ isLoading final = false)
  /\ (let directory :=
        fst (fst (CityService.load_next Number CityService.init Sample.london)) in
      let final :=
        component
          (Spec.searchRun directory "London" [] (Provider.Success Spec.cloudy15)) in
      currentWeather final
      = Some {| city := "London";
                temperature := 15;
                condition := "Cloudy";
                humidity := 0;
                windSpeed := 20;
                icon := "ğŸŒ" |}
      /\ temperatureF final = Some 59%float
      /\ weatherConditionClass final = "cloudy").
Proof.
  assert (Hhandled :
    forall (s : State) (current : Provider.CurrentWeather),
      let handled :=
        fst (searchWeather_next s
               {| Provider.current_weather := Some current |}) in
      exists weather,
        currentWeather handled = Some weather
        /\ city weather = searchCity s
        /\ searchCity handled = searchCity s
        /\ temperature weather = Provider.temperature current
        /\ windSpeed weather = Provider.windspeed current
        /\ humidity weather = 0%float
        /\ (forall label,
              In (Provider.weathercode current, label) weatherCodeMap ->
              condition weather = label)
        /\ ((forall label,
               ~ In (Provider.weathercode current, label) weatherCodeMap) ->
            condition weather = "Unknown")
        /\ isLoading handled = false).
  { intros s current handled. unfold handled.
    cbn [searchWeather_next Provider.current_weather fst
         set_isLoading set_currentWeather currentWeather isLoading searchCity].
    eexists. split; [reflexivity|].
    cbn [city temperature windSpeed humidity condition].
    repeat split.
    - intros label Hl. now rewrite (lookup_weatherCodeMap _ _ Hl).
    - intros Hno.
      destruct (lookup weatherCodeMap (Provider.weathercode current))
        as [label|] eqn:Hl.
      + apply lookup_Some_In in Hl. now apply Hno in Hl.
      + reflexivity. }
  split; [exact Hhandled | split].
  - intros directory typed edits current Hne Hin final.
    unfold final.
    rewrite (searchRun_publishes directory typed edits current Hne Hin).
    cbn [component].
    destruct (Hhandled {| searchCity := last edits typed;
                          isLoading := true;
                          currentWeather := None |} current)
      as (weather & Hw & Hc & _ & Ht & Hv & Hh & Hl & Hu & Hb).
    exists weather. now repeat split.
  - repeat split.
Qed.

End PublishedRecord.

(** C4 (amended) on a search for " London " edited twice while pending. *)
Lemma published_record_fields_witness :
  exists weather : WeatherComponent.WeatherData,
    WeatherComponent.currentWeather
      (WeatherComponent.component
         (Spec.searchRun Sample.directory " London " ["Paris"; "Tokyo"]
            (Provider.Success Spec.cloudy15)))
    = Some weather
    /\ WeatherComponent.city weather = "Tokyo"
    /\ WeatherComponent.condition weather = "Cloudy".
Proof.
  destruct (proj1 (proj2 (published_record_fields Sample.Number))
              Sample.directory " London " ["Paris"; "Tokyo"]
              {| Provider.temperature := 15;
                 Provider.windspeed := 20;
                 Provider.weathercode := 3;
                 Provider.others := [] |})
    as (weather & Hw & Hcity & _ & _ & _ & Hlabel & _).
  - vm_compute. discriminate.
  - vm_compute. left. reflexivity.
  - exists weather. split; [exact Hw|]. split; [exact Hcity|].
    apply Hlabel. vm_compute. do 3 right. left. reflexivity.
Defined.

(** C4 (as stated) fails: the user types "London", searches, and replaces
    the text by "Paris" while the call is pending; the record published
    when the answer arrives is labelled "Paris". *)
Lemma published_city_is_not_the_typed_one :
  ~ Spec.publishesTypedCity Sample.directory "London" ["Paris"] Spec.cloudy15.
Proof.
  intros (weather & Hw & Hcity).
  vm_compute in Hw. injection Hw as <-. discriminate Hcity.
Qed.

Example published_after_edit :
  WeatherComponent.currentWeather
    (WeatherComponent.component
       (Spec.searchRun Sample.directory "London" ["Paris"]
          (Provider.Success Spec.cloudy15)))
  = Some {| WeatherComponent.city := "Paris";
            WeatherComponent.temperature := 15;
            WeatherComponent.condition := "Cloudy";
            WeatherComponent.humidity := 0;
            WeatherComponent.windSpeed := 20;
            WeatherComponent.icon := "ğŸŒ" |}.
Proof. reflexivity. Qed.

(** C2 at the failing input. The city resolves, the busy indicator is set,
    and the provider answers 2xx with a body that has no [current_weather]:
    the [next] callback raises on [current.temperature], the call is over
    and the busy indicator is still set. The two other exits clear it. *)
Theorem malformed_payload_leaves_busy :
  let final :=
    Spec.searchRun Sample.directory "London" [] (Provider.Success Spec.emptyBody) in
  (forall s : WeatherComponent.State,
      WeatherComponent.searchWeather_next s Spec.emptyBody = (s, Throw TypeError))
  /\ WeatherComponent.pending final = []
  /\ WeatherComponent.isLoading (WeatherComponent.component final) = true
  /\ WeatherComponent.currentWeather (WeatherComponent.component final) = None
  /\ WeatherComponent.isLoading
       (WeatherComponent.component
          (Spec.searchRun Sample.directory "London" []
             (Provider.Success Spec.cloudy15))) = false
  /\ WeatherComponent.isLoading
       (WeatherComponent.component
          (Spec.searchRun Sample.directory "London" [] Provider.Failure)) = false.
Proof. repeat split. Qed.

(** C10 at the failing input. In the live revision the [next] callback
    does give every record the same icon and a humidity of zero, whatever
    the answer holds, and [weatherIconMap] has no part in it; but that
    icon is not the globe. The literal of the callback is the six bytes
    c4 9f c5 b8 c5 92 -- a globe decoded in the wrong character set, with
    its last byte lost --, where the globe is f0 9f 8c 8d, the icon the
    mock revision gives to the record it makes. *)
Theorem live_icon_is_not_the_globe :
  let final :=
    WeatherComponent.component
      (Spec.searchRun Sample.directory "London" []
         (Provider.Success Spec.cloudy15)) in
  (exists weather,
      WeatherComponent.currentWeather final = Some weather
      /\ WeatherComponent.icon weather <> "🌍"
      /\ map nat_of_ascii (list_ascii_of_string (WeatherComponent.icon weather))
         = [196; 159; 197; 184; 197; 146]
      /\ WeatherComponent.humidity weather = 0%float)
  /\ map nat_of_ascii (list_ascii_of_string "🌍") = [240; 159; 140; 141]
  /\ (forall (random : MockWeatherComponent.Draws) (s : MockWeatherComponent.State),
        exists weather,
          MockWeatherComponent.currentWeather
            (MockWeatherComponent.searchWeather_timeout "berlin" random s)
          = Some (MockWeatherComponent.Record_ weather)
          /\ WeatherComponent.icon weather = "🌍")
  /\ (forall (number : Type) (directory : CityService.State number)
             (script : list WeatherComponent.action),
        Spec.constantsOnly
          (WeatherComponent.run directory WeatherComponent.start script))
  /\ (forall (s : WeatherComponent.State) (current : Provider.CurrentWeather),
        exists weather,
          WeatherComponent.currentWeather
            (fst (WeatherComponent.searchWeather_next s
                    {| Provider.current_weather := Some current |}))
          = Some weather
          /\ WeatherComponent.icon weather = "ğŸŒ"
          /\ WeatherComponent.humidity weather = 0%float)
  /\ Forall (fun entry => snd entry <> "ğŸŒ") WeatherComponent.weatherIconMap.
Proof.
  split; [|split; [|split; [|split; [|split]]]].
  - eexists. split; [vm_compute; reflexivity|].
    split; [discriminate|]. split; reflexivity.
  - reflexivity.
  - intros random s. eexists. split; reflexivity.
  - intros number directory script. apply run_constantsOnly. exact I.
  - intros s current. eexists. simpl. now repeat split.
  - unfold WeatherComponent.weatherIconMap.
    repeat constructor; simpl; discriminate.
Qed.

Example humidity_in_answer_ignored :
  WeatherComponent.currentWeather
    (WeatherComponent.component
       (Spec.searchRun Sample.directory "London" []
          (Provider.Success
             {| Provider.current_weather :=
                  Some {| Provider.temperature := 15;
                          Provider.windspeed := 20;
                          Provider.weathercode := 0;
                          Provider.others := [("relativehumidity", 75%float)] |} |})))
  = Some {| WeatherComponent.city := "London";
            WeatherComponent.temperature := 15;
            WeatherComponent.condition := "Clear";
            WeatherComponent.humidity := 0;
            WeatherComponent.windSpeed := 20;
            WeatherComponent.icon := "ğŸŒ" |}.
Proof. reflexivity. Qed.

(** ** Derived values *)

Lemma roundHalfUp_nearest (x : Q) :
  (inject_Z (Spec.roundHalfUp x) - (1 # 2) <= x
   /\ x < inject_Z (Spec.roundHalfUp x) + (1 # 2))%Q.
Proof.
  unfold Spec.roundHalfUp.
  pose proof (Qfloor_le (x + (1 # 2))) as Hle.
  pose proof (Qlt_floor (x + (1 # 2))) as Hlt.
  rewrite inject_Z_plus in Hlt.
  change (inject_Z 1) with 1%Q in Hlt.
  split; lra.
Qed.

Lemma roundHalfUp_unique (x : Q) (n : Z) :
  (inject_Z n - (1 # 2) <= x)%Q -> (x < inject_Z n + (1 # 2))%Q ->
  Spec.roundHalfUp x = n.
Proof.
  intros Hle Hlt. unfold Spec.roundHalfUp.
  assert (Hlow : (n <= Qfloor (x + (1 # 2)))%Z).
  { rewrite <- (Qfloor_Z n). apply Qfloor_resp_le. lra. }
  assert (Hup : (Qfloor (x + (1 # 2)) < n + 1)%Z).
  { rewrite Zlt_Qlt. rewrite inject_Z_plus. change (inject_Z 1) with 1%Q.
    pose proof (Qfloor_le (x + (1 # 2))). lra. }
  lia.
Qed.

Lemma roundHalfUp_inject_Z (n : Z) : Spec.roundHalfUp (inject_Z n) = n.
Proof. apply roundHalfUp_unique; lra. Qed.

(** On a finite number, [nearestInteger] is the rounding of its exact
    value. *)
Lemma nearestInteger_exactValue (x : float) (q : Q) :
  exactValue x = Some q -> nearestInteger x = Some (Spec.roundHalfUp q).
Proof.
  unfold exactValue, nearestInteger.
  destruct (Prim2SF x) as [sign|sign| |s m [|e|k]]; try discriminate;
    intros [= <-]; f_equal; try (now rewrite roundHalfUp_inject_Z).
  unfold Spec.roundHalfUp, Qfloor, Qplus. cbn [Qnum Qden].
  rewrite Pos.add_1_r, Pos.pow_succ_r.
  f_equal; lia.
Qed.

Lemma nearestInteger_not_finite (x : float) :
  exactValue x = None -> nearestInteger x = None.
Proof.
  unfold exactValue, nearestInteger.
  destruct (Prim2SF x) as [sign|sign| |s m [|e|k]]; try discriminate;
    reflexivity.
Qed.

Section DerivedValues.

Import WeatherComponent.

(** C6 (amended). With a record of temperature [t] published, the
    Fahrenheit value is [Math.round] of [t * 9 / 5 + 32] as the host
    computes it, in binary64, the product, the quotient and the sum each
    rounded: when that number [y] is finite, the value is the integer
    within half a unit of the exact value of [y] (the upper one of two),
    as a number, a zero having the sign of [y]; when [y] is not finite
    the value is [y]. 15 gives 59, 0 gives 32 and 100 gives 212. With no
    record there is no value. The value is a function of the published
    record alone, and follows it when the [next] callback publishes a new
    one. *)
Theorem temperatureF_rounds :
  (forall s : State, temperatureF (set_currentWeather None s) = None)
  /\ (forall (s : State) (weather : WeatherData),
        let y := (temperature weather * 9 / 5 + 32)%float in
        (forall q : Q,
            exactValue y = Some q ->
            exists n : Z,
              (inject_Z n - (1 # 2) <= q)%Q
              /\ (q < inject_Z n + (1 # 2))%Q
              /\ (forall n' : Z,
                    (inject_Z n' - (1 # 2) <= q)%Q ->
                    (q < inject_Z n' + (1 # 2))%Q -> n' = n)
              /\ temperatureF (set_currentWeather (Some weather) s)
                 = Some (if (n =? 0)%Z
                         then if PrimFloat.get_sign y
                              then PrimFloat.neg_zero else PrimFloat.zero
                         else ofZ n))
        /\ (exactValue y = None ->
            temperatureF (set_currentWeather (Some weather) s) = Some y))
  /\ (forall (s : State) (c k i : string) (h v : float),
        let published t :=
          set_currentWeather
            (Some {| city := c; temperature := t; condition := k;
                     humidity := h; windSpeed := v; icon := i |}) s in
        temperatureF (published 15%float) = Some 59%float
        /\ temperatureF (published 0%float) = Some 32%float
        /\ temperatureF (published 100%float) = Some 212%float)
  /\ (forall s : State,
        temperatureF s = temperatureF (set_currentWeather (currentWeather s) init))
  /\ (forall (s : State) (current : Provider.CurrentWeather),
        temperatureF
          (fst (searchWeather_next s
                  {| Provider.current_weather := Some current |}))
        = Some (Math_round (Provider.temperature current * 9 / 5 + 32)%float)).
Proof.
  split; [|split; [|split; [|split]]].
  - reflexivity.
  - intros s weather y. split.
    + intros q Hq. exists (Spec.roundHalfUp q).
      destruct (roundHalfUp_nearest q) as [Hle Hlt].
      split; [exact Hle | split; [exact Hlt | split]].
      { intros n' Hle' Hlt'. symmetry. now apply roundHalfUp_unique. }
      unfold temperatureF. cbn [currentWeather set_currentWeather].
      fold y. unfold Math_round.
      rewrite (nearestInteger_exactValue y q Hq).
      now destruct (Spec.roundHalfUp q).
    + intros Hq. unfold temperatureF. cbn [currentWeather set_currentWeather].
      fold y. unfold Math_round.
      now rewrite (nearestInteger_not_finite y Hq).
  - intros. repeat split; vm_compute; reflexivity.
  - reflexivity.
  - reflexivity.
Qed.

End DerivedValues.

(** C6 (amended) at 15 degrees, where the number computed is 59. *)
Lemma temperatureF_rounds_witness :
  exists (n : Z) (q : Q),
    exactValue (15 * 9 / 5 + 32)%float = Some q
    /\ (inject_Z n - (1 # 2) <= q)%Q
    /\ (q < inject_Z n + (1 # 2))%Q
    /\ WeatherComponent.temperatureF
         (WeatherComponent.set_currentWeather
            (Some (MockWeatherComponent.mkWeather "London" 15 "Cloudy" 75 20 "x"))
            WeatherComponent.init)
       = Some (if (n =? 0)%Z
               then if PrimFloat.get_sign (15 * 9 / 5 + 32)%float
                    then PrimFloat.neg_zero else PrimFloat.zero
               else ofZ n).
Proof.
  edestruct (proj1 (proj1 (proj2 temperatureF_rounds) WeatherComponent.init
                      (MockWeatherComponent.mkWeather "London" 15 "Cloudy" 75 20 "x")))
    as (n & Hle & Hlt & _ & H).
  - vm_compute. reflexivity.
  - exists n. eexists. split; [vm_compute; reflexivity|].
    split; [exact Hle | split; [exact Hlt | exact H]].
Defined.

(** C6 (as stated) fails: at the temperature 2.4999999999999996, whose
    exact value is 5629499534213119 / 2^51, the exact value of
    [t * 9 / 5 + 32] lies below 36.5 and rounds to 36; the host computes
    36.5 and the Fahrenheit value is 37. *)
Lemma temperatureF_is_not_the_exact_rounding :
  ~ Spec.fahrenheitOfExactValue
      (WeatherComponent.set_currentWeather
         (Some (MockWeatherComponent.mkWeather "London" 0x1.3ffffffffffffp+1
                  "Cloudy" 75 20 "x"))
         WeatherComponent.init).
Proof.
  unfold Spec.fahrenheitOfExactValue.
  cbn [WeatherComponent.currentWeather WeatherComponent.set_currentWeather].
  intros H.
  specialize (H (5629499534213119 # 2251799813685248)%Q eq_refl).
  apply (f_equal (fun value =>
                    match value with
                    | Some x => PrimFloat.eqb x 37
                    | None => false
                    end)) in H.
  vm_compute in H. discriminate H.
Qed.

Example temperatureF_near_a_half :
  WeatherComponent.temperatureF
    (WeatherComponent.set_currentWeather
       (Some (MockWeatherComponent.mkWeather "London" 0x1.3ffffffffffffp+1
                "Cloudy" 75 20 "x"))
       WeatherComponent.init)
  = Some 37%float
  /\ Spec.roundHalfUp ((5629499534213119 # 2251799813685248) * 9 / 5 + 32)%Q
     = 36%Z.
Proof. split; vm_compute; reflexivity. Qed.

Example Math_round_samples :
  Math_round 2.5 = 3%float
  /\ Math_round (-2.5) = (-2)%float
  /\ Math_round (-0.5) = PrimFloat.neg_zero
  /\ Math_round 0x1.fffffffffffffp-2 = 0%float
  /\ Math_round PrimFloat.infinity = PrimFloat.infinity.
Proof. repeat split; vm_compute; reflexivity. Qed.

Lemma replaceRuns_noWhiteSpace (inRun : bool) (s : string) :
  Spec.noWhiteSpace s = true -> replaceRuns inRun s = s.
Proof.
  revert inRun. induction s as [|c s IH]; intros inRun; simpl.
  - reflexivity.
  - destruct (isWhiteSpace c); simpl; [discriminate|].
    intros H. now rewrite IH.
Qed.

(** After white space, a word is rewritten as at the start of the text. *)
Lemma replaceRuns_word (inRun : bool) (s : string) :
  Spec.startsWithWhiteSpace s = false ->
  replaceRuns inRun s = replaceRuns false s.
Proof.
  destruct s as [|c s]; simpl; [reflexivity|].
  now intros ->.
Qed.

(** The rest of a run that has begun leaves nothing. *)
Lemma replaceRuns_rest_of_run (gap rest : string) :
  Spec.allWhiteSpace gap = true ->
  Spec.startsWithWhiteSpace rest = false ->
  replaceRuns true (gap ++ rest) = replaceRuns false rest.
Proof.
  intros Hgap Hrest. induction gap as [|c gap IH]; simpl in *.
  - now apply replaceRuns_word.
  - apply andb_prop in Hgap. destruct Hgap as [Hc Hgap].
    rewrite Hc. now apply IH.
Qed.

(** A whole run leaves one hyphen. *)
Lemma replaceRuns_run (gap rest : string) :
  gap <> "" ->
  Spec.allWhiteSpace gap = true ->
  Spec.startsWithWhiteSpace rest = false ->
  replaceRuns false (gap ++ rest) = String "-" (replaceRuns false rest).
Proof.
  intros Hne Hgap Hrest. destruct gap as [|c gap]; [contradiction|].
  simpl in *. apply andb_prop in Hgap. destruct Hgap as [Hc Hgap].
  rewrite Hc. f_equal. now apply replaceRuns_rest_of_run.
Qed.

Lemma replaceRuns_split (inRun : bool) (before gap rest : string) :
  (before = "" -> inRun = false) ->
  Spec.endsWithWhiteSpace before = false ->
  gap <> "" ->
  Spec.allWhiteSpace gap = true ->
  Spec.startsWithWhiteSpace rest = false ->
  replaceRuns inRun (before ++ gap ++ rest)
  = replaceRuns inRun before ++ "-" ++ replaceRuns false rest.
Proof.
  intros Hflag Hend Hne Hgap Hrest. revert inRun Hflag.
  induction before as [|c before IH]; intros inRun Hflag.
  - rewrite (Hflag eq_refl). simpl. now apply replaceRuns_run.
  - destruct before as [|c' before'].
    + simpl in Hend. simpl. rewrite Hend. simpl. f_equal.
      now apply replaceRuns_run.
    + assert (Hend' : Spec.endsWithWhiteSpace (String c' before') = false)
        by exact Hend.
      change ((String c (String c' before') ++ gap ++ rest))
        with (String c (String c' before' ++ gap ++ rest)).
      cbn [replaceRuns].
      destruct (isWhiteSpace c); [destruct inRun|];
        cbn [append]; rewrite (IH Hend') by discriminate; reflexivity.
Qed.

Section Slug.

Import WeatherComponent.

(** C7. With no record the class is the empty string. With a record it is
    computed from the lower-cased label: a label without white space is
    its own class, and wherever the lower-cased label reads [before],
    then a run of white space, then [rest] -- the run being whole, that is
    [before] not ending and [rest] not starting with white space -- the
    class is the class of [before], one hyphen, and the class of [rest].
    "Partly Cloudy" gives "partly-cloudy", "Clear" gives "clear", and
    several spaces in a row give one hyphen. *)
Theorem weatherConditionClass_slug :
  (forall s : State, weatherConditionClass (set_currentWeather None s) = "")
  /\ (forall (s : State) (weather : WeatherData),
        Spec.noWhiteSpace (condition weather) = true ->
        weatherConditionClass (set_currentWeather (Some weather) s)
        = toLowerCase (condition weather))
  /\ (forall (s : State) (weather : WeatherData) (before gap rest : string),
        toLowerCase (condition weather) = before ++ gap ++ rest ->
        gap <> "" ->
        Spec.allWhiteSpace gap = true ->
        Spec.endsWithWhiteSpace before = false ->
        Spec.startsWithWhiteSpace rest = false ->
        weatherConditionClass (set_currentWeather (Some weather) s)
        = replaceWhiteSpaceRuns before ++ "-" ++ replaceWhiteSpaceRuns rest)
  /\ (forall (s : State) (c i : string) (t h v : float),
        let published k :=
          set_currentWeather
            (Some {| city := c; temperature := t; condition := k;
                     humidity := h; windSpeed := v; icon := i |}) s in
        weatherConditionClass (published "Partly Cloudy") = "partly-cloudy"
        /\ weatherConditionClass (published "Clear") = "clear"
        /\ weatherConditionClass (published "Heavy    Rain") = "heavy-rain").
Proof.
  split; [|split; [|split]].
  - reflexivity.
  - intros s weather Hno.
    unfold weatherConditionClass, replaceWhiteSpaceRuns. simpl.
    apply replaceRuns_noWhiteSpace.
    induction (condition weather) as [|c k IH]; simpl in *; [reflexivity|].
    rewrite isWhiteSpace_toLowerCaseUnit.
    destruct (isWhiteSpace c); simpl in *; [discriminate|]. now apply IH.
  - intros s weather before gap rest Heq Hne Hgap Hend Hrest.
    unfold weatherConditionClass, replaceWhiteSpaceRuns. simpl.
    rewrite Heq. now apply replaceRuns_split.
  - intros. now repeat split.
Qed.

End Slug.

(** C7 on a label with two spaces in a row. *)
Lemma weatherConditionClass_slug_witness :
  WeatherComponent.weatherConditionClass
    (WeatherComponent.set_currentWeather
       (Some {| WeatherComponent.city := "Paris";
                WeatherComponent.temperature := 18;
                WeatherComponent.condition := "Partly  Cloudy";
                WeatherComponent.humidity := 0;
                WeatherComponent.windSpeed := 12;
                WeatherComponent.icon := "🌍" |})
       WeatherComponent.init)
  = replaceWhiteSpaceRuns "partly" ++ "-" ++ replaceWhiteSpaceRuns "cloudy".
Proof.
  apply (proj1 (proj2 (proj2 weatherConditionClass_slug))
           WeatherComponent.init _ "partly" "  " "cloudy").
  - reflexivity.
  - discriminate.
  - reflexivity.
  - reflexivity.
  - reflexivity.
Defined.

(** ** Weather component, mock revision *)

Lemma floor_of_draw (r : Q) (n : Z) :
  (0 < n)%Z -> (0 <= r)%Q -> (r < 1)%Q ->
  (0 <= Math_floor (r * inject_Z n) <= n - 1)%Z.
Proof.
  intros Hn H0 H1. unfold Math_floor.
  assert (Hpos : (inject_Z 0 < inject_Z n)%Q) by (rewrite <- Zlt_Qlt; exact Hn).
  change (inject_Z 0) with 0%Q in Hpos.
  split.
  - rewrite <- (Qfloor_Z 0). apply Qfloor_resp_le.
    apply Qmult_le_0_compat; [exact H0 | now apply Qlt_le_weak].
  - assert (Hlt : (Qfloor (r * inject_Z n) < n)%Z).
    { rewrite Zlt_Qlt.
      apply Qle_lt_trans with (r * inject_Z n)%Q; [apply Qfloor_le|].
      setoid_replace (inject_Z n) with (1 * inject_Z n)%Q at 2 by ring.
      now apply Qmult_lt_compat_r. }
    lia.
Qed.

Section Mock.

Import MockWeatherComponent.

(** On a miss of [weatherDatabase[city]] the callback publishes a record
    made on the spot: condition "Unknown", temperature from 10 to 39,
    humidity from 40 to 79, wind speed from 5 to 24. *)
Lemma searchWeather_timeout_miss (city : string) (random : Draws) (s : State) :
  getProperty city = None ->
  (0 <= first random)%Q -> (first random < 1)%Q ->
  (0 <= second random)%Q -> (second random < 1)%Q ->
  (0 <= third random)%Q -> (third random < 1)%Q ->
  exists weather,
    currentWeather (searchWeather_timeout city random s) = Some (Record_ weather)
    /\ WeatherComponent.condition weather = "Unknown"
    /\ WeatherComponent.city weather = searchCity s
    /\ (exists t, WeatherComponent.temperature weather = ofZ t
                  /\ (10 <= t <= 39)%Z)
    /\ (exists h, WeatherComponent.humidity weather = ofZ h
                  /\ (40 <= h <= 79)%Z)
    /\ (exists v, WeatherComponent.windSpeed weather = ofZ v
                  /\ (5 <= v <= 24)%Z).
Proof.
  intros Hmiss Ht0 Ht1 Hh0 Hh1 Hv0 Hv1.
  unfold searchWeather_timeout. rewrite Hmiss. cbn [currentWeather].
  eexists. split; [reflexivity|].
  unfold mkWeather.
  cbn [WeatherComponent.condition WeatherComponent.city
       WeatherComponent.temperature WeatherComponent.humidity
       WeatherComponent.windSpeed].
  pose proof (floor_of_draw (first random) 30 eq_refl Ht0 Ht1) as Ht.
  pose proof (floor_of_draw (second random) 40 eq_refl Hh0 Hh1) as Hh.
  pose proof (floor_of_draw (third random) 20 eq_refl Hv0 Hv1) as Hv.
  change (inject_Z 30) with 30%Q in Ht.
  change (inject_Z 40) with 40%Q in Hh.
  change (inject_Z 20) with 20%Q in Hv.
  split; [reflexivity|]. split; [reflexivity|].
  repeat split; eexists; (split; [reflexivity | lia]).
Qed.

(** C9 at the failing input. "constructor" is not a key of the mock
    table, yet [weatherDatabase["constructor"]] is not [undefined]: it is
    the function every object inherits from [Object.prototype]. The
    callback takes the branch of a hit and publishes that function; no
    record with the condition "Unknown" and bounded numbers is made,
    whatever [Math.random] would have returned. *)
Theorem inherited_name_is_published (random : Draws) :
  let typed :=
    {| searchCity := "Constructor"; isLoading := false; currentWeather := None |} in
  let busy := fst (searchWeather typed) in
  ownProperty weatherDatabase "constructor" = None
  /\ snd (searchWeather typed) = [SetTimeout "constructor" 800]
  /\ isLoading busy = true
  /\ searchWeather_timeout "constructor" random busy
     = {| searchCity := "Constructor";
          isLoading := false;
          currentWeather := Some (Inherited "constructor") |}.
Proof. repeat split. Qed.

End Mock.

Example mock_hit :
  MockWeatherComponent.getProperty "paris"
  = Some (MockWeatherComponent.Record_
            (MockWeatherComponent.mkWeather "Paris" 18 "Partly Cloudy" 65 12 "⛅")).
Proof. reflexivity. Qed.

Example mock_miss : MockWeatherComponent.getProperty "berlin" = None.
Proof. reflexivity. Qed.

Example mock_inherited :
  MockWeatherComponent.getProperty "__proto__"
  = Some (MockWeatherComponent.Inherited "__proto__").
Proof. reflexivity. Qed.

(** * Further properties of the code *)

(** ** Trimming, splitting and joining *)

Lemma trimStart_allWhiteSpace (s : string) :
  Spec.allWhiteSpace s = true -> trimStart s = "".
Proof.
  induction s as [|c s IH]; simpl; [reflexivity|].
  intros H. apply andb_prop in H. destruct H as [Hc Hs].
  rewrite Hc. now apply IH.
Qed.

Lemma trimEnd_allWhiteSpace (s : string) :
  trimEnd s = "" <-> Spec.allWhiteSpace s = true.
Proof.
  induction s as [|c s IH]; simpl.
  - now split.
  - destruct (trimEnd s) as [|d r].
    + destruct (isWhiteSpace c); simpl.
      * split; [intros _; now apply IH | reflexivity].
      * split; discriminate.
    + split; [discriminate|].
      intros H. apply andb_prop in H. destruct H as [_ Hs].
      apply IH in Hs. discriminate.
Qed.

Lemma trimStart_word (s : string) :
  Spec.startsWithWhiteSpace s = false -> trimStart s = s.
Proof. destruct s as [|c s]; simpl; [reflexivity | now intros ->]. Qed.

Lemma trimStart_starts (s : string) :
  Spec.startsWithWhiteSpace (trimStart s) = false.
Proof.
  induction s as [|c s IH]; simpl; [reflexivity|].
  destruct (isWhiteSpace c) eqn:Hc; [exact IH | simpl; exact Hc].
Qed.

Lemma trimStart_suffix (s : string) :
  exists blank, s = blank ++ trimStart s /\ Spec.allWhiteSpace blank = true.
Proof.
  induction s as [|c s (blank & Hs & Hb)]; simpl.
  - now exists "".
  - destruct (isWhiteSpace c) eqn:Hc.
    + exists (String c blank). simpl. rewrite Hc, Hb. split; [now f_equal | reflexivity].
    + now exists "".
Qed.

Lemma allWhiteSpace_app (a b : string) :
  Spec.allWhiteSpace (a ++ b) = Spec.allWhiteSpace a && Spec.allWhiteSpace b.
Proof.
  induction a as [|c a IH]; simpl; [reflexivity|].
  now rewrite IH, andb_assoc.
Qed.

(** A text is trimmed to nothing exactly when it is blank. *)
Lemma trim_blank (s : string) :
  trim s = "" <-> Spec.allWhiteSpace s = true.
Proof.
  unfold trim. rewrite trimEnd_allWhiteSpace.
  destruct (trimStart_suffix s) as (blank & Hs & Hb).
  rewrite Hs at 2. rewrite allWhiteSpace_app, Hb. simpl. reflexivity.
Qed.

Lemma allWhiteSpace_toLowerCase (s : string) :
  Spec.allWhiteSpace (toLowerCase s) = Spec.allWhiteSpace s.
Proof.
  induction s as [|c s IH]; simpl; [reflexivity|].
  now rewrite isWhiteSpace_toLowerCaseUnit, IH.
Qed.

Lemma trimEnd_starts (s : string) :
  Spec.startsWithWhiteSpace s = false ->
  Spec.startsWithWhiteSpace (trimEnd s) = false.
Proof.
  destruct s as [|c s]; simpl; [reflexivity|].
  intros Hc. destruct (trimEnd s); [rewrite Hc|]; simpl; exact Hc.
Qed.

Lemma trimEnd_idempotent (s : string) : trimEnd (trimEnd s) = trimEnd s.
Proof.
  induction s as [|c s IH]; simpl; [reflexivity|].
  destruct (trimEnd s) as [|d r] eqn:Hr.
  - destruct (isWhiteSpace c) eqn:Hc; simpl; [reflexivity | now rewrite Hc].
  - change (trimEnd (String c (String d r)))
      with (match trimEnd (String d r) with
            | "" => if isWhiteSpace c then "" else String c ""
            | r' => String c r'
            end).
    now rewrite IH.
Qed.

Lemma trimEnd_ends (s : string) : Spec.endsWithWhiteSpace (trimEnd s) = false.
Proof.
  induction s as [|c s IH]; simpl; [reflexivity|].
  destruct (trimEnd s) as [|d r].
  - destruct (isWhiteSpace c) eqn:Hc; simpl; [reflexivity | exact Hc].
  - exact IH.
Qed.

Lemma trim_idempotent (s : string) : trim (trim s) = trim s.
Proof.
  unfold trim.
  rewrite (trimStart_word (trimEnd (trimStart s))).
  - apply trimEnd_idempotent.
  - apply trimEnd_starts, trimStart_starts.
Qed.

Lemma split_not_nil (sep : ascii) (s : string) : split sep s <> [].
Proof.
  destruct s as [|c s]; simpl; [discriminate|].
  destruct (Ascii.eqb c sep); [discriminate|].
  destruct (split sep s); discriminate.
Qed.

(** A text without the separator is one field, and a separator after it
    starts the next field. *)
Lemma split_first_field (sep : ascii) (first rest : string) :
  Spec.free sep first = true ->
  split sep (first ++ String sep rest) = first :: split sep rest.
Proof.
  induction first as [|c first IH]; simpl.
  - intros _. now rewrite Ascii.eqb_refl.
  - intros H. apply andb_prop in H. destruct H as [Hc Hf].
    apply negb_true_iff in Hc. rewrite Hc, (IH Hf). reflexivity.
Qed.

Lemma split_free (sep : ascii) (s : string) :
  Spec.free sep s = true -> split sep s = [s].
Proof.
  induction s as [|c s IH]; simpl; [reflexivity|].
  intros H. apply andb_prop in H. destruct H as [Hc Hf].
  apply negb_true_iff in Hc. rewrite Hc, (IH Hf). reflexivity.
Qed.

Lemma split_fields_free (sep : ascii) (s : string) :
  Forall (fun field => Spec.free sep field = true) (split sep s).
Proof.
  induction s as [|c s IH]; simpl.
  - now repeat constructor.
  - destruct (Ascii.eqb c sep) eqn:Hc.
    + now constructor.
    + destruct (split sep s) as [|field fields].
      * repeat constructor. simpl. now rewrite Hc.
      * inversion IH as [|? ? Hf Hfs]; subst.
        constructor; [simpl; now rewrite Hc, Hf | exact Hfs].
Qed.

(** Splitting and joining on one separator are inverse of each other:
    joining the fields of a text gives the text back, and splitting the
    join of fields that do not hold the separator gives the fields back
    (there being at least one field, as [split] never returns none). *)
Lemma split_join_round_trip (sep : ascii) :
  (forall s : string, join (String sep "") (split sep s) = s)
  /\ (forall (field : string) (fields : list string),
        Forall (fun f => Spec.free sep f = true) (field :: fields) ->
        split sep (join (String sep "") (field :: fields)) = field :: fields).
Proof.
  split.
  - induction s as [|c s IH]; simpl; [reflexivity|].
    destruct (Ascii.eqb_spec c sep) as [-> | Hc].
    + pose proof (split_not_nil sep s) as Hne.
      destruct (split sep s) as [|field fields]; [contradiction|].
      simpl in *. now rewrite IH.
    + pose proof (split_not_nil sep s) as Hne.
      destruct (split sep s) as [|field fields]; [contradiction|].
      rewrite <- IH. destruct fields; reflexivity.
  - intros field fields. revert field.
    induction fields as [|g fields IH]; intros field Hfree.
    + inversion Hfree; subst. now apply split_free.
    + inversion Hfree as [|? ? Hf Hrest]; subst.
      change (join (String sep "") (field :: g :: fields))
        with (field ++ String sep "" ++ join (String sep "") (g :: fields)).
      simpl append at 2.
      rewrite (split_first_field sep field _ Hf). f_equal. now apply IH.
Qed.

Lemma split_join_round_trip_witness :
  split ";" (join ";" ["1"; "UK"; "london"; ""; "35"])
  = ["1"; "UK"; "london"; ""; "35"].
Proof.
  apply (proj2 (split_join_round_trip ";")).
  repeat constructor.
Defined.

(** ** Searching: when a request is made *)

Section SearchRequests.

Context {number : Type}.
Variable directory : CityService.State number.

Import WeatherComponent.

Lemma getCoordinates_Some_In (key : string) (coords : Coordinates.t number) :
  CityService.getCoordinates directory key = Some coords ->
  exists c, In c (CityService.cities directory)
            /\ CityService.city c = toLowerCase key
            /\ coords = Coordinates.mk (CityService.lat c) (CityService.lon c).
Proof.
  unfold CityService.getCoordinates.
  destruct (find _ (CityService.cities directory)) as [c|] eqn:Hf; [|discriminate].
  intros [= <-]. apply find_some in Hf. destruct Hf as [Hin Heq].
  exists c. repeat split; [assumption | now apply String.eqb_eq].
Qed.

(** X2. [searchWeather] makes a request exactly when the lower-cased and
    trimmed search text is not empty and is the key of a stored record.
    When it makes none it changes nothing -- the busy indicator is not
    touched and nothing tells the user --, and when it makes one, it is one
    only and the only change is the busy indicator being set. *)
Theorem searchWeather_request_iff (s : State) :
  let key := trim (toLowerCase (searchCity s)) in
  let result := searchWeather directory s in
  (snd result <> []
   <-> key <> "" /\ In key (map CityService.city (CityService.cities directory)))
  /\ (snd result = [] -> fst result = s)
  /\ (snd result <> [] ->
      fst result = set_isLoading true s /\ List.length (snd result) = 1).
Proof.
  intros key result. unfold result, searchWeather. fold key.
  destruct (truthy key) eqn:Hk; simpl.
  - assert (Hne : key <> "") by (intros H; rewrite H in Hk; discriminate).
    destruct (CityService.getCoordinates directory key) as [coords|] eqn:Hco; simpl.
    + repeat split; try discriminate; try congruence.
      apply getCoordinates_Some_In in Hco. destruct Hco as (c & Hin & Hc & _).
      unfold key in Hc. rewrite toLowerCase_normalized in Hc. fold key in Hc.
      rewrite <- Hc. now apply in_map.
    + repeat split; try congruence.
      intros [_ Hin].
      destruct (getCoordinates_known_key directory key
                  (toLowerCase_normalized (searchCity s)) Hin) as (coords & Hco').
      congruence.
  - apply truthy_false in Hk. repeat split; try congruence.
    now intros [Hne _].
Qed.

(** X3. The record a search resolves to has a key that is lower-case, not
    empty and free of surrounding white space. A record stored under a
    key with a blank before or after it -- the fields of a row are not
    trimmed one by one -- is thus never found by a search. *)
Theorem searchWeather_resolves_trimmed_keys (s : State)
  (latitude longitude : number) :
  snd (searchWeather directory s) = [Forecast latitude longitude] ->
  exists c,
    In c (CityService.cities directory)
    /\ latitude = CityService.lat c
    /\ longitude = CityService.lon c
    /\ CityService.city c = trim (toLowerCase (searchCity s))
    /\ trim (CityService.city c) = CityService.city c
    /\ toLowerCase (CityService.city c) = CityService.city c
    /\ CityService.city c <> "".
Proof.
  unfold searchWeather.
  set (key := trim (toLowerCase (searchCity s))).
  destruct (truthy key) eqn:Hk; simpl; [|discriminate].
  destruct (CityService.getCoordinates directory key) as [coords|] eqn:Hco;
    simpl; [|discriminate].
  intros [= <- <-].
  apply getCoordinates_Some_In in Hco. destruct Hco as (c & Hin & Hc & ->).
  unfold key in Hc. rewrite toLowerCase_normalized in Hc. fold key in Hc.
  exists c. rewrite Hc. repeat split; try assumption.
  - apply trim_idempotent.
  - apply toLowerCase_normalized.
  - intros H. rewrite H in Hk. discriminate.
Qed.

End SearchRequests.

(** The line of a row is trimmed, its fields are not: the city of
    [Sample.padded] is stored with its blanks, and no search text
    resolves to it. *)
Example padded_key_is_never_resolved (s : WeatherComponent.State) :
  let directory :=
    fst (fst (CityService.load_next Sample.Number CityService.init Sample.padded)) in
  map CityService.city (CityService.cities directory) = [" london "]
  /\ WeatherComponent.searchWeather directory s = (s, []).
Proof.
  intros directory. split; [reflexivity|].
  unfold WeatherComponent.searchWeather.
  set (key := trim (toLowerCase (WeatherComponent.searchCity s))).
  destruct (negb (truthy key)); [reflexivity|].
  destruct (CityService.getCoordinates directory key) as [coords|] eqn:Hco;
    [|reflexivity].
  exfalso.
  apply getCoordinates_Some_In in Hco. destruct Hco as (c & Hin & Hc & _).
  unfold key in Hc. rewrite toLowerCase_normalized in Hc. fold key in Hc.
  assert (Hkey : key = " london ").
  { destruct Hin as [<- | []]. now rewrite <- Hc. }
  assert (Htrim : trim key = key) by apply trim_idempotent.
  rewrite Hkey in Htrim. discriminate Htrim.
Qed.

Lemma searchWeather_resolves_trimmed_keys_witness :
  exists c,
    In c (CityService.cities Sample.directory)
    /\ CityService.city c = "london"
    /\ trim (CityService.city c) = CityService.city c.
Proof.
  destruct (searchWeather_resolves_trimmed_keys Sample.directory
              (WeatherComponent.set_searchCity "  LONDON " WeatherComponent.init)
              (Sample.Finite (103 # 2)) (Sample.Finite (-3 # 25)) eq_refl)
    as (c & Hin & _ & _ & Hkey & Htrim & _).
  exists c. repeat split; assumption.
Defined.

(** X1. A search text that is empty or blank starts nothing, in the live
    revision (whatever the directory) as in the mock one: no request, no
    timer, and the component is as [selectCity] or the input left it. *)
Theorem blank_search_is_ignored (text : string) :
  Spec.allWhiteSpace text = true ->
  (forall (number : Type) (directory : CityService.State number)
          (s : WeatherComponent.State),
      WeatherComponent.selectCity directory text s
      = (WeatherComponent.set_searchCity text s, [])
      /\ WeatherComponent.searchWeather directory
           (WeatherComponent.onCityInput text s)
         = (WeatherComponent.onCityInput text s, []))
  /\ (forall s : MockWeatherComponent.State,
        MockWeatherComponent.selectCity text s
        = (MockWeatherComponent.onCityInput text s, [])).
Proof.
  intros Hblank.
  assert (Hkey : trim (toLowerCase text) = "").
  { apply trim_blank. now rewrite allWhiteSpace_toLowerCase. }
  split.
  - intros number directory s.
    unfold WeatherComponent.selectCity, WeatherComponent.onCityInput,
      WeatherComponent.searchWeather.
    cbn [WeatherComponent.searchCity WeatherComponent.set_searchCity].
    rewrite Hkey. now split.
  - intros s.
    unfold MockWeatherComponent.selectCity, MockWeatherComponent.searchWeather.
    cbn [MockWeatherComponent.searchCity MockWeatherComponent.onCityInput].
    rewrite Hkey. reflexivity.
Qed.

Lemma blank_search_is_ignored_witness :
  MockWeatherComponent.selectCity "   " MockWeatherComponent.init
  = (MockWeatherComponent.onCityInput "   " MockWeatherComponent.init, []).
Proof.
  exact (proj2 (blank_search_is_ignored "   " eq_refl) MockWeatherComponent.init).
Defined.

(** ** The dataset and its loading *)

Section DatasetProperties.

Context {number : Type}.
Variable Number : option string -> number.

Import CityService.

Lemma mapM_In {A B : Type} (f : A -> completion B) (xs : list A)
  (ys : list B) (y : B) :
  mapM f xs = Normal ys -> In y ys -> exists x, In x xs /\ f x = Normal y.
Proof.
  revert ys. induction xs as [|x xs IH]; simpl; intros ys.
  - intros [= <-] [].
  - destruct (f x) as [y0|] eqn:Hx; simpl; [|discriminate].
    destruct (mapM f xs) as [ys0|]; simpl; [|discriminate].
    intros [= <-] [<- | Hin].
    + exists x. split; [now left | exact Hx].
    + destruct (IH ys0 eq_refl Hin) as (x' & Hin' & Hx').
      exists x'. split; [now right | exact Hx'].
Qed.

(** X4. The first line of the dataset is dropped whatever it holds: two
    datasets that differ in their first line only parse alike, and the
    rows parsed are the trimmed, non-empty lines after the first line
    feed. A dataset that starts with a city instead of a header loses it. *)
Theorem parse_drops_first_line (first other body : string) :
  Spec.free LF first = true ->
  Spec.free LF other = true ->
  parse Number (first ++ String LF body) = parse Number (other ++ String LF body)
  /\ rows (first ++ String LF body) = filter truthy (map trim (split LF body)).
Proof.
  intros Hf Ho. unfold parse, rows.
  rewrite (split_first_field LF first body Hf).
  rewrite (split_first_field LF other body Ho).
  now split.
Qed.

(** X5. A dataset with no row after its first line -- empty, one line, or
    blank lines only -- is loaded as an empty directory: the parse
    completes, the flag is set, so that a later [load()] fetches nothing,
    and no search resolves. *)
Theorem load_without_rows (data : string) :
  rows data = [] ->
  parse Number data = Normal []
  /\ run Number start [CallLoad; Deliver data; CallLoad]
     = {| service := {| cities := []; loaded := true |};
          inFlight := 0;
          log := [HttpGet "assets/data.csv"; Parse data] |}
  /\ forall s : WeatherComponent.State,
       WeatherComponent.searchWeather
         ({| cities := []; loaded := true |} : State number) s
       = (s, []).
Proof.
  intros Hrows.
  assert (Hparse : parse Number data = Normal []) by (unfold parse; now rewrite Hrows).
  split; [exact Hparse | split].
  - unfold run. simpl. unfold load_next. rewrite Hparse. reflexivity.
  - intros s. unfold WeatherComponent.searchWeather.
    destruct (negb _); reflexivity.
Qed.

(** X6. A row of fewer than three fields anywhere in the dataset makes the
    load fail as a whole: the directory and the flag stay as they were, the
    records of the well-formed rows are not stored, and the next [load()]
    fetches the dataset again. *)
Theorem load_with_short_row (data row : string) :
  In row (rows data) ->
  List.length (split ";" row) < 3 ->
  run Number start [CallLoad; Deliver data; CallLoad]
  = {| service := init;
       inFlight := 1;
       log := [HttpGet "assets/data.csv"; Parse data;
               HttpGet "assets/data.csv"] |}.
Proof.
  intros Hin Hshort.
  destruct (parse_short_row_raises Number data row Hin Hshort) as (e & He).
  unfold run. simpl. unfold load_next. rewrite He. reflexivity.
Qed.

(** X7. Every parsed record is stored under a lower-case key and can be
    looked up by it, in any letter case: [getCoordinates] then answers
    with the coordinates of the first record stored under that key. *)
Theorem parsed_city_resolves (data : string)
  (records : list (CityRecord number)) (r : CityRecord number) :
  parse Number data = Normal records ->
  In r records ->
  toLowerCase (city r) = city r
  /\ forall name : string,
       toLowerCase name = city r ->
       exists c,
         Spec.firstMatch (city r) records c
         /\ getCoordinates {| cities := records; loaded := true |} name
            = Some (Coordinates.mk (lat c) (lon c)).
Proof.
  intros Hparse Hin.
  destruct (mapM_In _ _ _ _ Hparse Hin) as (row & _ & Hrow).
  split; [now apply (parseLine_key Number row)|].
  intros name Hname.
  pose proof (getCoordinates_resolves {| cities := records; loaded := true |} name)
    as H.
  unfold Spec.resolvesBy in H. rewrite Hname in H. simpl cities in H.
  destruct (getCoordinates _ name) as [coords|].
  - destruct H as (c & Hc & ->). now exists c.
  - exfalso. rewrite Forall_forall in H. now apply (H r Hin).
Qed.

Lemma run_loads_service (w : World number) (n : nat) :
  service (run Number w (repeat CallLoad n)) = service w.
Proof.
  revert w. induction n as [|n IH]; intros w; [reflexivity|].
  change (run Number w (repeat CallLoad (S n)))
    with (run Number (step Number w CallLoad) (repeat CallLoad n)).
  rewrite IH. simpl. unfold load. now destruct (loaded (service w)).
Qed.

(** X8. [load()] is not single-flight: as long as no dataset has arrived,
    every call issues a request of its own, and the service stays as it
    was. *)
Theorem load_before_arrival (w : World number) (n : nat) :
  loaded (service w) = false ->
  run Number w (repeat CallLoad n)
  = {| service := service w;
       inFlight := inFlight w + n;
       log := log w ++ repeat (HttpGet "assets/data.csv") n |}.
Proof.
  revert w. induction n as [|n IH]; intros w Hl.
  - destruct w as [s k l]. simpl. now rewrite Nat.add_0_r, app_nil_r.
  - change (run Number w (repeat CallLoad (S n)))
      with (run Number (step Number w CallLoad) (repeat CallLoad n)).
    assert (Hstep : step Number w CallLoad
                    = {| service := service w;
                         inFlight := inFlight w + 1;
                         log := log w ++ [HttpGet "assets/data.csv"] |}).
    { simpl. unfold load. now rewrite Hl. }
    rewrite Hstep, IH by exact Hl. simpl.
    f_equal; [lia | now rewrite <- app_assoc].
Qed.

(** X9. [ngOnInit] on a fresh service asks for the dataset once. Until
    the dataset arrives the directory is empty, however often [load()] is
    called: a search made in the meantime does nothing, whatever the
    search text. *)
Theorem search_before_dataset_arrives (n : nat) (s : WeatherComponent.State) :
  WeatherComponent.ngOnInit (init : State number)
  = (init, [HttpGet "assets/data.csv"])
  /\ WeatherComponent.searchWeather
       (service (run Number start (repeat CallLoad n))) s
     = (s, []).
Proof.
  split; [reflexivity|].
  rewrite (run_loads_service start n). cbn [service start].
  unfold WeatherComponent.searchWeather.
  destruct (negb _); reflexivity.
Qed.

(** X10. When two requests are pending, both datasets are parsed as they
    arrive and the directory holds the records of the one that arrived
    last. *)
Theorem overlapping_loads (first second : string)
  (records1 records2 : list (CityRecord number)) :
  parse Number first = Normal records1 ->
  parse Number second = Normal records2 ->
  run Number start [CallLoad; CallLoad; Deliver first; Deliver second]
  = {| service := {| cities := records2; loaded := true |};
       inFlight := 0;
       log := [HttpGet "assets/data.csv"; HttpGet "assets/data.csv";
               Parse first; Parse second] |}.
Proof.
  intros H1 H2. unfold run. simpl. unfold load_next. now rewrite H1, H2.
Qed.

End DatasetProperties.

Lemma parse_drops_first_line_witness :
  CityService.parse Sample.Number
    ("1;UK;london;51.5;-0.12;35" ++ String LF "2;FR;paris;48.85;2.35;35")
  = CityService.parse Sample.Number
      (Sample.header ++ String LF "2;FR;paris;48.85;2.35;35").
Proof.
  exact (proj1 (parse_drops_first_line Sample.Number
                  "1;UK;london;51.5;-0.12;35" Sample.header
                  "2;FR;paris;48.85;2.35;35" eq_refl eq_refl)).
Defined.

Lemma load_without_rows_witness :
  CityService.parse Sample.Number (Sample.header ++ Sample.nl ++ "  " ++ Sample.nl)
  = Normal [].
Proof.
  exact (proj1 (load_without_rows Sample.Number
                  (Sample.header ++ Sample.nl ++ "  " ++ Sample.nl) eq_refl)).
Defined.

Lemma load_with_short_row_witness :
  CityService.run Sample.Number CityService.start
    [CityService.CallLoad; CityService.Deliver Sample.truncated;
     CityService.CallLoad]
  = {| CityService.service := CityService.init;
       CityService.inFlight := 1;
       CityService.log :=
         [CityService.HttpGet "assets/data.csv";
          CityService.Parse Sample.truncated;
          CityService.HttpGet "assets/data.csv"] |}.
Proof.
  apply (load_with_short_row Sample.Number Sample.truncated "2;FR").
  - vm_compute. right. left. reflexivity.
  - vm_compute. lia.
Defined.

Lemma parsed_city_resolves_witness :
  exists c,
    Spec.firstMatch "london" (CityService.cities Sample.directory) c
    /\ CityService.getCoordinates Sample.directory "LONDON"
       = Some (Coordinates.mk (CityService.lat c) (CityService.lon c)).
Proof.
  refine (proj2 (parsed_city_resolves Sample.Number Sample.london
                   (CityService.cities Sample.directory)
                   {| CityService.id := "1";
                      CityService.country := "UK";
                      CityService.city := "london";
                      CityService.lat := Sample.Finite (103 # 2);
                      CityService.lon := Sample.Finite (-3 # 25);
                      CityService.altitude := Sample.Finite 35 |}
                   eq_refl _) "LONDON" eq_refl).
  left. reflexivity.
Defined.

Lemma load_before_arrival_witness :
  CityService.run Sample.Number CityService.start
    [CityService.CallLoad; CityService.CallLoad; CityService.CallLoad]
  = {| CityService.service := CityService.init;
       CityService.inFlight := 3;
       CityService.log := repeat (CityService.HttpGet "assets/data.csv") 3 |}.
Proof.
  exact (load_before_arrival Sample.Number CityService.start 3 eq_refl).
Defined.

Lemma overlapping_loads_witness :
  CityService.run Sample.Number CityService.start
    [CityService.CallLoad; CityService.CallLoad;
     CityService.Deliver Sample.ragged; CityService.Deliver Sample.london]
  = {| CityService.service := Sample.directory;
       CityService.inFlight := 0;
       CityService.log :=
         [CityService.HttpGet "assets/data.csv";
          CityService.HttpGet "assets/data.csv";
          CityService.Parse Sample.ragged;
          CityService.Parse Sample.london] |}.
Proof.
  eapply (overlapping_loads Sample.Number Sample.ragged Sample.london);
    vm_compute; reflexivity.
Defined.

(** ** Derived values, again *)

Lemma replaceRuns_no_whiteSpace_left (inRun : bool) (s : string) :
  Spec.noWhiteSpace (replaceRuns inRun s) = true.
Proof.
  revert inRun. induction s as [|c s IH]; intros inRun; simpl.
  - reflexivity.
  - destruct (isWhiteSpace c) eqn:Hc.
    + destruct inRun; simpl; now rewrite ?IH.
    + simpl. now rewrite Hc, IH.
Qed.

Lemma replaceRuns_toLowerCase (inRun : bool) (s : string) :
  toLowerCase (replaceRuns inRun s) = replaceRuns inRun (toLowerCase s).
Proof.
  revert inRun. induction s as [|c s IH]; intros inRun; simpl.
  - reflexivity.
  - rewrite isWhiteSpace_toLowerCaseUnit.
    destruct (isWhiteSpace c).
    + destruct inRun; simpl; now rewrite IH.
    + simpl. now rewrite IH.
Qed.

Lemma replaceRuns_length (inRun : bool) (s : string) :
  String.length (replaceRuns inRun s) <= String.length s.
Proof.
  revert inRun. induction s as [|c s IH]; intros inRun; simpl.
  - lia.
  - destruct (isWhiteSpace c).
    + destruct inRun; simpl.
      * specialize (IH true). lia.
      * specialize (IH true). lia.
    + simpl. specialize (IH false). lia.
Qed.

Lemma toLowerCase_length (s : string) :
  String.length (toLowerCase s) = String.length s.
Proof. induction s as [|c s IH]; simpl; [reflexivity | now rewrite IH]. Qed.

Section DerivedValuesAgain.

Import WeatherComponent.

(** X11. The class computed from the condition is always one token: it
    holds no white space, it is in lower case, and it is no longer than
    the label. *)
Theorem weatherConditionClass_token (s : State) :
  Spec.noWhiteSpace (weatherConditionClass s) = true
  /\ toLowerCase (weatherConditionClass s) = weatherConditionClass s
  /\ match currentWeather s with
     | None => weatherConditionClass s = ""
     | Some weather =>
         String.length (weatherConditionClass s)
         <= String.length (condition weather)
     end.
Proof.
  unfold weatherConditionClass, replaceWhiteSpaceRuns.
  destruct (currentWeather s) as [weather|].
  - repeat split.
    + apply replaceRuns_no_whiteSpace_left.
    + now rewrite replaceRuns_toLowerCase, toLowerCase_idempotent.
    + rewrite <- (toLowerCase_length (condition weather)).
      apply replaceRuns_length.
  - now repeat split.
Qed.

End DerivedValuesAgain.

(** ** Runs of the live component, again *)

Section RunsAgain.

Context {number : Type}.
Variable directory : CityService.State number.

Import WeatherComponent.




(** X14. The busy indicator is one flag for all pending calls: with two
    calls or more pending, the first that settles -- by a failure or by an
    answer with a [current_weather] -- clears it although a call is still
    pending. *)
Theorem busy_cleared_while_pending (w : World number)
  (r1 r2 : request number) (rest : list (request number))
  (current : Provider.CurrentWeather) :
  pending w = r1 :: r2 :: rest ->
  let failed := step directory w (Settle Provider.Failure) in
  let answered :=
    step directory w
      (Settle (Provider.Success {| Provider.current_weather := Some current |})) in
  isLoading (component failed) = false
  /\ pending failed = r2 :: rest
  /\ isLoading (component answered) = false
  /\ pending answered = r2 :: rest.
Proof.
  intros Hp failed answered. unfold failed, answered.
  rewrite step_settle_failure, step_settle_success, Hp.
  now repeat split.
Qed.

End RunsAgain.

Lemma busy_cleared_while_pending_witness :
  let w :=
    WeatherComponent.run Sample.directory WeatherComponent.start
      [WeatherComponent.Input "London"; WeatherComponent.Submit;
       WeatherComponent.Submit] in
  WeatherComponent.isLoading (WeatherComponent.component w) = true
  /\ WeatherComponent.isLoading
       (WeatherComponent.component
          (WeatherComponent.step Sample.directory w
             (WeatherComponent.Settle Provider.Failure))) = false
  /\ WeatherComponent.pending
       (WeatherComponent.step Sample.directory w
          (WeatherComponent.Settle Provider.Failure))
     = [WeatherComponent.Forecast (Sample.Finite (103 # 2))
          (Sample.Finite (-3 # 25))].
Proof.
  intros w.
  destruct (busy_cleared_while_pending Sample.directory w
              (WeatherComponent.Forecast (Sample.Finite (103 # 2))
                 (Sample.Finite (-3 # 25)))
              (WeatherComponent.Forecast (Sample.Finite (103 # 2))
                 (Sample.Finite (-3 # 25)))
              []
              {| Provider.temperature := 15;
                 Provider.windspeed := 20;
                 Provider.weathercode := 3;
                 Provider.others := [] |}
              eq_refl)
    as (Hb & Hp & _).
  repeat split; assumption.
Defined.

(** ** The mock revision, again *)

Lemma toUpperCaseUnit_ascii (c : ascii) :
  (nat_of_ascii c <? 128)%nat = true ->
  exists c', toUpperCaseUnit c = Some (String c' "")
             /\ toLowerCaseUnit c' = toLowerCaseUnit c.
Proof.
  destruct c as [[] [] [] [] [] [] [] []]; intros H;
    try discriminate H; eexists; split; reflexivity.
Qed.

Lemma toLowerCase_app (a b : string) :
  toLowerCase (a ++ b) = toLowerCase a ++ toLowerCase b.
Proof. induction a as [|c a IH]; simpl; [reflexivity | now rewrite IH]. Qed.

Lemma toLowerCase_join (sep : string) (xs : list string) :
  toLowerCase (join sep xs) = join (toLowerCase sep) (map toLowerCase xs).
Proof.
  induction xs as [|x xs IH]; [reflexivity|].
  destruct xs as [|y xs]; [reflexivity|].
  change (join sep (x :: y :: xs)) with (x ++ sep ++ join sep (y :: xs)).
  rewrite !toLowerCase_app, IH. reflexivity.
Qed.

Lemma append_length (a b : string) :
  String.length (a ++ b) = String.length a + String.length b.
Proof. induction a as [|c a IH]; simpl; [reflexivity | now rewrite IH]. Qed.

Lemma join_length (sep : string) (xs ys : list string) :
  Forall2 (fun x y => String.length x = String.length y) xs ys ->
  String.length (join sep xs) = String.length (join sep ys).
Proof.
  induction 1 as [|x y xs ys Hxy Hrest IH]; [reflexivity|].
  destruct Hrest as [|x' y' xs ys Hxy' Hrest]; [exact Hxy|].
  change (join sep (x :: x' :: xs)) with (x ++ sep ++ join sep (x' :: xs)).
  change (join sep (y :: y' :: ys)) with (y ++ sep ++ join sep (y' :: ys)).
  rewrite !append_length, IH, Hxy. reflexivity.
Qed.

Lemma split_isAscii (sep : ascii) (s : string) :
  Spec.isAscii s = true ->
  Forall (fun field => Spec.isAscii field = true) (split sep s).
Proof.
  induction s as [|c s IH]; simpl.
  - intros _. now repeat constructor.
  - intros H. apply andb_prop in H. destruct H as [Hc Hs].
    specialize (IH Hs).
    destruct (Ascii.eqb c sep).
    + now constructor.
    + destruct (split sep s) as [|field fields].
      * repeat constructor. simpl. now rewrite Hc.
      * inversion IH as [|? ? Hf Hfs]; subst.
        constructor; [simpl; now rewrite Hc, Hf | exact Hfs].
Qed.

Section MockAgain.

Import MockWeatherComponent.

Lemma titleWord_ascii (word : string) :
  Spec.isAscii word = true ->
  exists title, titleWord word = Some title
                /\ toLowerCase title = toLowerCase word
                /\ String.length title = String.length word.
Proof.
  destruct word as [|c rest]; simpl.
  - intros _. now exists "".
  - intros H. apply andb_prop in H. destruct H as [Hc _].
    destruct (toUpperCaseUnit_ascii c Hc) as (c' & -> & Hlow).
    exists (String c' rest). simpl. now rewrite Hlow.
Qed.

Lemma traverse_titleWord (words : list string) :
  Forall (fun word => Spec.isAscii word = true) words ->
  exists titles,
    traverse titleWord words = Some titles
    /\ map toLowerCase titles = map toLowerCase words
    /\ Forall2 (fun x y => String.length x = String.length y) titles words.
Proof.
  induction 1 as [|word words Hw _ (titles & Ht & Hl & Hn)]; simpl.
  - exists []. now repeat split.
  - destruct (titleWord_ascii word Hw) as (title & -> & Hlow & Hlen).
    rewrite Ht. exists (title :: titles). simpl. rewrite Hlow, Hl.
    repeat split. now constructor.
Qed.

(** X15. On a city name made of code units below 128, the title-casing of
    [getAvailableCities] changes letter case only: the result has the
    length of the name and the same lower-case form, spaces included. *)
Theorem titleCase_changes_case_only (city : string) :
  Spec.isAscii city = true ->
  exists title,
    titleCase city = Some title
    /\ toLowerCase title = toLowerCase city
    /\ String.length title = String.length city.
Proof.
  intros Hascii. unfold titleCase.
  destruct (traverse_titleWord (split SPACE city) (split_isAscii SPACE city Hascii))
    as (titles & -> & Hlow & Hlen).
  exists (join " " titles).
  pose proof (proj1 (split_join_round_trip SPACE) city) as Hcity.
  change (String SPACE "") with " " in Hcity.
  repeat split.
  - rewrite toLowerCase_join, Hlow, <- toLowerCase_join. now rewrite Hcity.
  - rewrite (join_length " " titles (split SPACE city) Hlen). now rewrite Hcity.
Qed.

(** X16. Every city offered by [getAvailableCities] -- there is one per
    entry of the mock table -- is a hit when selected: [selectCity] starts
    the timer with a key of the table, and the callback publishes the
    table's record, whose display name is the very name offered. *)
Theorem available_cities_are_hits :
  exists names,
    getAvailableCities = Some names
    /\ map (fun name => trim (toLowerCase name)) names = map fst weatherDatabase
    /\ Forall
         (fun name =>
            forall (s s' : State) (random : Draws),
              let key := trim (toLowerCase name) in
              exists weather,
                snd (selectCity name s) = [SetTimeout key 800]
                /\ isLoading (fst (selectCity name s)) = true
                /\ searchWeather_timeout key random s'
                   = {| searchCity := searchCity s';
                        isLoading := false;
                        currentWeather := Some (Record_ weather) |}
                /\ WeatherComponent.city weather = name)
         names.
Proof.
  eexists. split; [reflexivity|]. split; [reflexivity|].
  repeat (constructor; [intros s s' random key; eexists; repeat split|]).
  constructor.
Qed.

(** X17. A search text whose normalized form is a key of the mock table is
    a hit whatever its letter case and the blanks around it: the callback
    publishes the record of the table as it is -- its display name, not
    the text typed -- and draws no random number. *)
Theorem mock_hit_publishes_table_record (typed : string)
  (weather : WeatherComponent.WeatherData) :
  ownProperty weatherDatabase (trim (toLowerCase typed)) = Some weather ->
  forall (s s' : State) (random : Draws),
    let key := trim (toLowerCase typed) in
    selectCity typed s
    = ({| searchCity := typed;
          isLoading := true;
          currentWeather := currentWeather s |},
       [SetTimeout key 800])
    /\ searchWeather_timeout key random s'
       = {| searchCity := searchCity s';
            isLoading := false;
            currentWeather := Some (Record_ weather) |}
    /\ In (key, weather) weatherDatabase.
Proof.
  intros Hown s s' random key. fold key in Hown.
  assert (Hne : truthy key = true).
  { destruct key; [discriminate Hown | reflexivity]. }
  split; [|split].
  - unfold selectCity, searchWeather, onCityInput.
    cbn [searchCity isLoading currentWeather]. fold key. now rewrite Hne.
  - unfold searchWeather_timeout, getProperty. now rewrite Hown.
  - clear - Hown. revert Hown. generalize weatherDatabase.
    induction l as [|[k v] l IH]; simpl; [discriminate|].
    destruct (String.eqb_spec k key) as [-> | _].
    + intros [= ->]. now left.
    + intros H. right. now apply IH.
Qed.


End MockAgain.

Lemma titleCase_changes_case_only_witness :
  exists title,
    MockWeatherComponent.titleCase "new york" = Some title
    /\ toLowerCase title = "new york"
    /\ String.length title = 8.
Proof.
  exact (titleCase_changes_case_only "new york" eq_refl).
Defined.

Lemma mock_hit_publishes_table_record_witness :
  MockWeatherComponent.searchWeather_timeout "new york"
    {| MockWeatherComponent.first := 1 # 2;
       MockWeatherComponent.second := 1 # 2;
       MockWeatherComponent.third := 1 # 2 |}
    MockWeatherComponent.init
  = {| MockWeatherComponent.searchCity := "";
       MockWeatherComponent.isLoading := false;
       MockWeatherComponent.currentWeather :=
         Some (MockWeatherComponent.Record_
                 (MockWeatherComponent.mkWeather
                    "New York" 22 "Sunny" 60 15 "☀️")) |}.
Proof.
  exact (proj1 (proj2 (mock_hit_publishes_table_record "  NEW York " _ eq_refl
                         MockWeatherComponent.init MockWeatherComponent.init
                         {| MockWeatherComponent.first := 1 # 2;
                            MockWeatherComponent.second := 1 # 2;
                            MockWeatherComponent.third := 1 # 2 |}))).
Defined.

